(** * Star Fox Adventures model decoder: shader records, display-list table,
      vertex descriptors and the command-stream interpreter.

    Shallow embedding of [materialloader.ts] and of the decoding core of
    [modelloader.ts].  JavaScript numbers are integers of [Z]; a thrown
    exception is [None] in the [option] monad; arrays are lists. *)

From stdpp Require Import base numbers option list gmap.

Local Open Scope Z_scope.

(** ** DataView

    A [DataView] is modelled by the bytes it ranges over, each element taken
    modulo 256.  Every getter raises a [RangeError] when it reads outside the
    view; all multi-byte reads of the decoder are big-endian. *)
Module DV.

Abbreviation DataView := (list Z).

Definition byteLength (d : DataView) : Z := Z.of_nat (length d).

Definition getUint8 (d : DataView) (o : Z) : option Z :=
  if decide (0 ≤ o) then (λ b, b mod 256) <$> d !! Z.to_nat o else None.

Definition getUint16 (d : DataView) (o : Z) : option Z :=
    b0 ← getUint8 d o; b1 ← getUint8 d (o + 1);
    Some (b0 * 256 + b1).

Definition getUint32 (d : DataView) (o : Z) : option Z :=
    b0 ← getUint8 d o; b1 ← getUint8 d (o + 1);
    b2 ← getUint8 d (o + 2); b3 ← getUint8 d (o + 3);
    Some (((b0 * 256 + b1) * 256 + b2) * 256 + b3).

  (** [dataSubarray(data, offs)] and [dataSubarray(data, offs, len)] of
      [util.ts]: a new view on the same bytes; the [DataView] constructor
      raises when the window does not fit. *)
Definition dataSubarray (d : DataView) (o : Z) : option DataView :=
    if decide (0 ≤ o ≤ byteLength d) then Some (drop (Z.to_nat o) d) else None.

Definition dataSubarrayLen (d : DataView) (o len : Z) : option DataView :=
    if decide (0 ≤ o ∧ 0 ≤ len ∧ o + len ≤ byteLength d)
    then Some (take (Z.to_nat len) (drop (Z.to_nat o) d)) else None.


End DV.

(** ** Enumerations declared in [materials.ts]

    [ShaderFlags], [ShaderAttrFlags] and [NormalFlags] are imported by both
    source files; the decoder only combines them with [|], [&] and [~].  Their
    numeric values are parameters of the development.  Flag words are kept as
    the unsigned bit pattern; the decoder observes them through [flags & F]
    tests only. *)
Record ShaderFlagsEnum := {
  DevGeometry : Z; Fog : Z; CullBackface : Z; ReflectSkyscape : Z; Caustic : Z;
  Lava : Z; Reflective : Z; AlphaCompare : Z;
  ShortFur : Z; MediumFur : Z; LongFur : Z; Water : Z
}.

Record ShaderAttrFlagsEnum := {
  ATTR_NRM : Z;              (* ShaderAttrFlags.NRM *)
  ATTR_CLR : Z;              (* ShaderAttrFlags.CLR ?? 0x01 *)
  ATTR_TEX0 : Z;             (* ShaderAttrFlags.TEX0 ?? 0x04 *)
  ATTR_TEX1 : Z              (* ShaderAttrFlags.TEX1 ?? 0x08 *)
}.

(** [!!(w & m)] *)
Definition flagSet (w m : Z) : bool := negb (Z.land w m =? 0).

(** [w & ~m] *)
Definition flagClear (w m : Z) : Z := Z.land w (Z.lnot m).

(** ** materialloader.ts *)
Module Material.
Import DV.

Record ShaderFields := {
    isAncient : bool; isBeta : bool; isold : bool; isEarly1 : bool;
    isEarly3 : bool; isSwapcircle : bool;
    size : Z; numLayers : Z; layers : Z
  }.

Definition mkFields (anc beta old e1 e3 swap : bool) (sz nl ls : Z) : ShaderFields :=
    {| isAncient := anc; isBeta := beta; isold := old; isEarly1 := e1;
       isEarly3 := e3; isSwapcircle := swap; size := sz; numLayers := nl; layers := ls |}.

Definition SFA_SHADER_FIELDS := mkFields false false false false false false 0x44 0x41 0x24.
Definition SFADEMO_MODEL_SHADER_FIELDS := mkFields false true false true false false 0x40 0x3b 0x24.
Definition SFADEMO_MAP_SHADER_FIELDS := mkFields false true false true false false 0x40 0x3b 0x24.
Definition VERY_EARLY_2001 := mkFields false true true false false false 0x40 0x3b 0x24.
Definition BETA_MAP_SHADER_FIELDS := mkFields false true false false false true 0x38 0x36 0x20.
Definition BETA_MODEL_SHADER_FIELDS := mkFields false true false false false false 0x38 0x36 0x20.
Definition ANCIENT_MAP_SHADER_FIELDS := mkFields true false false false false false 0x3c 0x3a 0x24.
Definition EARLY2_MAP_SHADER_FIELDS := mkFields false true false false true false 0x44 0x3f 0x24.
Definition EARLY3_MAP_SHADER_FIELDS := mkFields false true false false true false 0x44 0x3f 0x24.

Definition KNOWN_WATER_TEXIDS : list Z := [899; 2871].
Definition KNOWN_ANCIENT_WATER_TEXIDS : list Z := [2373; 2794; 24; 2871; 713; 611; 2793].
Definition KNOWN_CUTOUT_TEXIDS_BETA : list Z := [3254; 3272; 189].
Definition KNOWN_CUTOUT_TEXIDS_ANCIENT : list Z :=
    [630; 646; 672; 1094; 1098; 1103; 1107; 1110; 1111; 1112].
Definition KNOWN_CUTOUT_TEXIDS_EARLY1 : list Z := [1692; 1135; 1695; 1131; 176; 783; 785].

  (** A texture id slot: a number, [null] (index [0xffffffff]) or [undefined]
      (index outside [modelTexIds]). *)
Inductive TexId := TexNum (n : Z) | TexNull | TexUndef.

  (** [id != null] *)
Definition texPresent (t : TexId) : bool :=
    match t with TexNum _ => true | _ => false end.

  (** [id === n || ...] and [SET.has(id)] *)
Definition texIn (t : TexId) (l : list Z) : bool :=
    match t with TexNum n => bool_decide (n ∈ l) | _ => false end.

  (** [id !== null] *)
Definition texNotNull (t : TexId) : bool :=
    match t with TexNull => false | _ => true end.

Record ShaderLayer := {
    texId : TexId; tevMode : Z; enableScroll : Z; scrollSlot : option Z
  }.

Record Shader := {
    sh_layers : list ShaderLayer;
    flags : Z;
    attrFlags : Z;
    hasHemisphericProbe : bool;
    hasReflectiveProbe : bool;
    reflectiveProbeMaskTexId : TexId;
    reflectiveProbeIdx : Z;
    hasNBTTexture : bool;
    nbtTexId : TexId;
    nbtParams : Z;
    furRegionsTexId : TexId;
    sh_isAncient : bool;
    sh_isBeta : bool;
    normalFlags : Z;
    lightFlags : Z;
    texMtxCount : Z
  }.

Definition parseModelTexId (data : DataView) (offs : Z) (modelTexIds : list Z)
    : option TexId :=
    idx ← getUint32 data offs;
    Some (if decide (idx = 0xffffffff) then TexNull
          else match modelTexIds !! Z.to_nat idx with
               | Some n => TexNum n
               | None => TexUndef
               end).

Definition parseShaderLayer (data : DataView) (modelTexIds : list Z)
    : option ShaderLayer :=
    scrollingTexMtx ← getUint8 data 0x6;
    t ← parseModelTexId data 0x0 modelTexIds;
    tev ← getUint8 data 0x4;
    es ← getUint8 data 0x5;
    Some {| texId := t; tevMode := tev; enableScroll := es;
            scrollSlot := if decide (scrollingTexMtx = 0) then None
                          else Some scrollingTexMtx |}.

  (** The layer loop [for (i = 0; i < numLayers; i++)], by recursion on the
      number of layers left. *)
Fixpoint parseLayers (data : DataView) (base : Z) (modelTexIds : list Z)
      (n : nat) (i : Z) : option (list ShaderLayer) :=
    match n with
    | O => Some []
    | S n' =>
        sub ← dataSubarray data (base + i * 8);
        l ← parseShaderLayer sub modelTexIds;
        rest ← parseLayers data base modelTexIds n' (i + 1);
        Some (l :: rest)
    end.

  (** [if (c) w |= m] *)
Definition orIf (c : bool) (m w : Z) : Z := if c then Z.lor w m else w.

  (** [layers[i]?.texId]; a missing layer gives [undefined]. *)
Definition layerTex (ls : list ShaderLayer) (i : nat) : TexId :=
    match ls !! i with Some l => texId l | None => TexUndef end.

  (** [(layers[i]?.tevMode ?? 0) & 0x7f] *)
Definition layerTev7 (ls : list ShaderLayer) (i : nat) : Z :=
    Z.land (match ls !! i with Some l => tevMode l | None => 0 end) 0x7f.

Section WithEnums.
Variable SF : ShaderFlagsEnum.
Variable AF : ShaderAttrFlagsEnum.

Definition translateEarly1Flags (raw16 : Z) : Z :=
      orIf (flagSet raw16 0x8000) (MediumFur SF)
      (orIf (flagSet raw16 0x4000) (ShortFur SF)
      (orIf (flagSet raw16 0x0100) (AlphaCompare SF)
      (orIf (flagSet raw16 0x0040) (AlphaCompare SF)
      (orIf (flagSet raw16 0x0020) (ReflectSkyscape SF)
      (orIf (flagSet raw16 0x0008) (CullBackface SF) 0))))).

Definition translateEarly3Flags (raw16 : Z) : Z :=
      orIf (flagSet raw16 0x4000) (AlphaCompare SF)
      (orIf (flagSet raw16 0x0400) (AlphaCompare SF)
      (orIf (flagSet raw16 0x0100) (Reflective SF)
      (orIf (flagSet raw16 0x0040) (Caustic SF)
      (orIf (flagSet raw16 0x0020) (ReflectSkyscape SF)
      (orIf (flagSet raw16 0x0008) (CullBackface SF)
      (orIf (flagSet raw16 0x0004) (Fog SF)
      (orIf (flagSet raw16 0x0002) (DevGeometry SF) 0))))))).

    (** The derivation of attribute bits from layer usage shared by the
        Swapcircle, Early1 and Early3 branches. *)
Definition deriveAttr (ls : list ShaderLayer) (attr : Z) : Z :=
      let a1 := orIf (texPresent (layerTex ls 0)) (ATTR_TEX0 AF) attr in
      let a2 := orIf (texPresent (layerTex ls 1)) (ATTR_TEX1 AF) a1 in
      orIf (Z.land a2 (Z.lor (Z.lor (ATTR_CLR AF) (ATTR_TEX0 AF)) (ATTR_TEX1 AF)) =? 0)
           (ATTR_CLR AF) a2.

Definition initShader (ls : list ShaderLayer) (nf lf tmc : Z) : Shader :=
      {| sh_layers := ls; flags := 0; attrFlags := 0;
         hasHemisphericProbe := false; hasReflectiveProbe := false;
         reflectiveProbeMaskTexId := TexNull; reflectiveProbeIdx := 0;
         hasNBTTexture := false; nbtTexId := TexNull; nbtParams := 0;
         furRegionsTexId := TexNull; sh_isAncient := false; sh_isBeta := false;
         normalFlags := nf; lightFlags := lf; texMtxCount := tmc |}.

Definition setFlagsAttr (s : Shader) (f a : Z) : Shader :=
      {| sh_layers := sh_layers s; flags := f; attrFlags := a;
         hasHemisphericProbe := hasHemisphericProbe s;
         hasReflectiveProbe := hasReflectiveProbe s;
         reflectiveProbeMaskTexId := reflectiveProbeMaskTexId s;
         reflectiveProbeIdx := reflectiveProbeIdx s;
         hasNBTTexture := hasNBTTexture s; nbtTexId := nbtTexId s;
         nbtParams := nbtParams s; furRegionsTexId := furRegionsTexId s;
         sh_isAncient := sh_isAncient s; sh_isBeta := sh_isBeta s;
         normalFlags := normalFlags s; lightFlags := lightFlags s;
         texMtxCount := texMtxCount s |}.

Definition setFamily (s : Shader) (anc beta : bool) : Shader :=
      {| sh_layers := sh_layers s; flags := flags s; attrFlags := attrFlags s;
         hasHemisphericProbe := hasHemisphericProbe s;
         hasReflectiveProbe := hasReflectiveProbe s;
         reflectiveProbeMaskTexId := reflectiveProbeMaskTexId s;
         reflectiveProbeIdx := reflectiveProbeIdx s;
         hasNBTTexture := hasNBTTexture s; nbtTexId := nbtTexId s;
         nbtParams := nbtParams s; furRegionsTexId := furRegionsTexId s;
         sh_isAncient := anc; sh_isBeta := beta;
         normalFlags := normalFlags s; lightFlags := lightFlags s;
         texMtxCount := texMtxCount s |}.

Definition setProbes (s : Shader) (hemi refl : bool) (mask : TexId) (idx : Z)
        (nbt : TexId) (hasNbt : bool) (params : Z) (fur : TexId) : Shader :=
      {| sh_layers := sh_layers s; flags := flags s; attrFlags := attrFlags s;
         hasHemisphericProbe := hemi; hasReflectiveProbe := refl;
         reflectiveProbeMaskTexId := mask; reflectiveProbeIdx := idx;
         hasNBTTexture := hasNbt; nbtTexId := nbt;
         nbtParams := params; furRegionsTexId := fur;
         sh_isAncient := sh_isAncient s; sh_isBeta := sh_isBeta s;
         normalFlags := normalFlags s; lightFlags := lightFlags s;
         texMtxCount := texMtxCount s |}.


(** Branch [fields.isAncient]. *)
Definition parseAncient (data : DataView) (shader : Shader) : option Shader :=
  flags8 ← getUint8 data 0x38;
  attr ← getUint8 data 0x39;
  let ls := sh_layers shader in
  let a1 := orIf (texPresent (layerTex ls 0)) (ATTR_TEX0 AF) attr in
  let a2 := orIf (texPresent (layerTex ls 1)) (ATTR_TEX1 AF) a1 in
  let a3 := orIf (a2 =? 0) (ATTR_CLR AF) a2 in
  let first := layerTex ls 0 in
  let lowNib := Z.land flags8 0x0F in
  let looksWater :=
    ((bool_decide (lowNib = 0x0D) || bool_decide (lowNib = 0x0C)) && texPresent first)
    || texIn first [1392; 24; 1234; 5678; 1391]
    || texIn first KNOWN_ANCIENT_WATER_TEXIDS in
  let f1 := orIf looksWater (Water SF) (CullBackface SF) in
  let singleLayer := bool_decide (length ls = 1%nat) in
  let hasTex := texPresent first in
  let tevPlain :=
    match ls !! 0%nat with
    | Some l => bool_decide (tevMode l = 0x00) || bool_decide (tevMode l = 0x01)
                || bool_decide (tevMode l = 0x02)
    | None => false
    end in
  let isCutoutTex :=
    texIn first [928; 791; 430; 573; 575; 576; 577; 2882; 44; 2046; 2228; 2467;
                 2538; 1798; 2791; 574; 684; 96; 740; 0; 595; 596; 593; 594; 592; 589]
    || texIn first KNOWN_CUTOUT_TEXIDS_ANCIENT in
  let f2 := orIf (singleLayer && hasTex && negb looksWater && tevPlain && isCutoutTex)
                 (AlphaCompare SF) f1 in
  Some (setFlagsAttr (setFamily shader true false) f2 a3).

(** [layers.length === 1 || (layers.length >= 2 && layers[1]?.texId == null)] *)
Definition singleLayerOrEmptySecond (ls : list ShaderLayer) : bool :=
  bool_decide (length ls = 1%nat)
  || (bool_decide (2 ≤ length ls)%nat && negb (texPresent (layerTex ls 1))).

(** [if (isLava) { flags |= Lava; flags &= ~Water; }] *)
Definition markLava (isLava : bool) (w : Z) : Z :=
  if isLava then flagClear (Z.lor w (Lava SF)) (Water SF) else w.

(** Branch [fields.isSwapcircle]. *)
Definition parseSwapcircle (data : DataView) (shader : Shader) : option Shader :=
  flags8 ← getUint8 data 0x34;
  attr ← getUint8 data 0x35;
  let ls := sh_layers shader in
  let a := deriveAttr ls attr in
  let texId0 := layerTex ls 0 in
  let texId1 := layerTex ls 1 in
  let tmode0 := layerTev7 ls 0 in
  let tmode1 := layerTev7 ls 1 in
  let lowNib := Z.land flags8 0x0F in
  let singleLayer := singleLayerOrEmptySecond ls in
  let hasTex0 := texPresent texId0 in
  let tevPlain0 := bool_decide (tmode0 = 0x00) || bool_decide (tmode0 = 0x01)
                   || bool_decide (tmode0 = 0x02) || bool_decide (tmode0 = 0x03) in
  let tevOkAny := (bool_decide (tmode0 = 0x02) || bool_decide (tmode0 = 0x03))
                  || (bool_decide (tmode1 = 0x02) || bool_decide (tmode1 = 0x03)) in
  let isCutout0 := texIn texId0 KNOWN_CUTOUT_TEXIDS_BETA
                   || texIn texId0 KNOWN_CUTOUT_TEXIDS_ANCIENT
                   || texIn texId0 KNOWN_CUTOUT_TEXIDS_EARLY1 in
  let f1 := orIf (singleLayer && hasTex0 && tevPlain0 && isCutout0)
                 (AlphaCompare SF) (CullBackface SF) in
  let anyKnownWater := texIn texId0 KNOWN_WATER_TEXIDS || texIn texId1 KNOWN_WATER_TEXIDS in
  let f2 :=
    if anyKnownWater then Z.lor f1 (Water SF)
    else orIf (hasTex0 && (tevOkAny || bool_decide (lowNib = 0x0D)
                                    || bool_decide (lowNib = 0x0C)))
              (Water SF) f1 in
  let isLava := texIn texId0 [32928; 584; 1061; 1062; 585]
                || texIn texId1 [32928; 584; 1061; 1062; 585] in
  let f3 := markLava isLava f2 in
  hemi ← getUint32 data 0x08;
  refl ← getUint32 data 0x14;
  nbt ← getUint8 data 0x37;
  Some (setProbes (setFlagsAttr (setFamily shader false true) f3 a)
          (bool_decide (hemi = 1)) (bool_decide (refl = 1))
          TexNull 0 TexNull (flagSet nbt 0x80) 0 TexNull).

(** Branch [fields.isBeta && fields.isold]. *)
Definition parseOld (data : DataView) (shader : Shader) : option Shader :=
  raw16 ← getUint16 data 0x38;
  attr ← getUint8 data 0x3A;
  let ls := sh_layers shader in
  let f0 := orIf (flagSet raw16 0x1000) 0x1000
            (orIf (flagSet raw16 0x0800) 0x0800
            (orIf (flagSet raw16 (CullBackface SF)) (CullBackface SF) 0)) in
  let texId := layerTex ls 0 in
  let tmode := layerTev7 ls 0 in
  let tevOk := bool_decide (tmode = 0x02) || bool_decide (tmode = 0x03) in
  let lowNib := Z.land raw16 0x0F in
  let singleLayer := singleLayerOrEmptySecond ls in
  let hasTex := texPresent texId in
  let tevPlain := bool_decide (tmode = 0x00) || bool_decide (tmode = 0x01)
                  || bool_decide (tmode = 0x02) in
  let isCutoutTex :=
    texIn texId [177; 526; 525; 982; 536; 1294; 1295; 418; 88; 571;
                 44; 668; 417; 2090; 568; 567; 638; 810; 2094; 691;
                 944; 7; 769; 767; 1156; 996; 811; 2056; 189; 176]
    || texIn texId KNOWN_CUTOUT_TEXIDS_ANCIENT
    || texIn texId KNOWN_CUTOUT_TEXIDS_EARLY1 in
  let f1 := orIf (singleLayer && hasTex && tevPlain && isCutoutTex) (AlphaCompare SF) f0 in
  let f2 :=
    if hasTex && negb isCutoutTex then
      let isKnownWater := texIn texId KNOWN_WATER_TEXIDS in
      let strongById := texIn texId [899] || isKnownWater in
      let heurWater := isKnownWater && tevOk
                       && (bool_decide (lowNib = 0x0D) || bool_decide (lowNib = 0x0C)) in
      let fw := orIf (strongById || heurWater) (Water SF) f1 in
      markLava (texIn texId [457; 584; 1061; 1062; 585]) fw
    else f1 in
  Some (setFlagsAttr (setFamily shader false true) f2 attr).

(** Branch [fields.isBeta && fields.isEarly1]. *)
Definition parseEarly1 (data : DataView) (shader : Shader) : option Shader :=
  raw16 ← getUint16 data 0x38;
  attr ← getUint8 data 0x3A;
  let ls := sh_layers shader in
  let f0 := flagClear (translateEarly1Flags raw16) (DevGeometry SF) in
  let a := deriveAttr ls attr in
  let tm0 := layerTev7 ls 0 in
  let tm1 := layerTev7 ls 1 in
  let lowNib := Z.land raw16 0x0F in
  let tevOk := (bool_decide (tm0 = 0x02) || bool_decide (tm0 = 0x03))
               || (bool_decide (tm1 = 0x02) || bool_decide (tm1 = 0x03)) in
  let f1 := orIf ((bool_decide (lowNib = 0x0C) || bool_decide (lowNib = 0x0D)) && tevOk)
                 (Water SF) f0 in
  _ ← getUint8 data 0x04; _ ← getUint8 data 0x05; _ ← getUint8 data 0x06;
  Some (setFlagsAttr (setFamily shader false true) f1 a).

(** The probe, NBT and fur-region fields shared by the Early3 branch and the
    final branch (the base colour and the ambient factor, floating point
    values derived from single bytes, are read but not kept). *)
Definition readProbes (data : DataView) (modelTexIds : list Z) (shader : Shader)
  : option Shader :=
  hemi ← getUint32 data 0x08;
  refl ← getUint32 data 0x14;
  mask ← parseModelTexId data 0x18 modelTexIds;
  idx ← getUint8 data 0x20;
  _ ← getUint8 data 0x22;
  nbt ← parseModelTexId data 0x34 modelTexIds;
  params ← getUint8 data 0x42;
  fur ← parseModelTexId data 0x38 modelTexIds;
  _ ← getUint8 data 0x04; _ ← getUint8 data 0x05; _ ← getUint8 data 0x06;
  Some (setProbes shader (negb (bool_decide (hemi = 0))) (negb (bool_decide (refl = 0)))
          mask idx nbt (texNotNull nbt) params fur).

(** Branch [fields.isBeta && fields.isEarly3]. *)
Definition parseEarly3 (data : DataView) (modelTexIds : list Z) (shader : Shader)
  : option Shader :=
  raw16 ← getUint16 data 0x3c;
  attr ← getUint8 data 0x3e;
  let a := deriveAttr (sh_layers shader) attr in
  readProbes data modelTexIds
    (setFlagsAttr (setFamily shader false true) (translateEarly3Flags raw16) a).

(** The final [else] branch (standard family): the flag word is taken from
    the record as it is. *)
Definition parseFinal (data : DataView) (modelTexIds : list Z) (shader : Shader)
  : option Shader :=
  f ← getUint32 data 0x3c;
  attr ← getUint8 data 0x40;
  readProbes data modelTexIds (setFlagsAttr shader f attr).

Definition parseShader (data : DataView) (fields : ShaderFields)
    (modelTexIds : list Z) (nf lf tmc : Z) : option Shader :=
  nl0 ← getUint8 data (numLayers fields);
  let nl := if decide (nl0 > 2) then 2 else nl0 in
  ls ← parseLayers data (layers fields) modelTexIds (Z.to_nat nl) 0;
  let shader := initShader ls nf lf tmc in
  if isAncient fields then parseAncient data shader
  else if isSwapcircle fields then parseSwapcircle data shader
  else if isBeta fields then
    if isold fields then parseOld data shader
    else if isEarly1 fields then parseEarly1 data shader
    else if isEarly3 fields then parseEarly3 data modelTexIds shader
    else Some (setFlagsAttr (setFamily shader false true) (CullBackface SF) (ATTR_CLR AF))
  else parseFinal data modelTexIds shader.

End WithEnums.
End Material.

(** ** GX enumerations used by the decoder

    [GX.Attr] and [GX.AttrType] are declared in [gx/gx_enum.ts].  The decoder
    indexes descriptor arrays with [GX.Attr] members and steps through them
    with [GX.Attr.TEX0MTXIDX + i] and [GX.Attr.TEX0 + t], so the members are
    array positions: the enumeration order of the hardware register layout,
    starting from [PNMTXIDX = 0] and ending with [MAX = TEX7]. *)
Module GX.

Inductive AttrType := NONE | DIRECT | INDEX8 | INDEX16.

#[global] Instance AttrType_eq_dec : EqDecision AttrType.
Proof. solve_decision. Defined.

Definition PNMTXIDX : nat := 0.
Definition TEX0MTXIDX : nat := 1.
Definition POS : nat := 9.
Definition NRM : nat := 10.
Definition CLR0 : nat := 11.
Definition CLR1 : nat := 12.
Definition TEX0 : nat := 13.
Definition TEX1 : nat := 14.
Definition TEX2 : nat := 15.
Definition TEX3 : nat := 16.
Definition TEX7 : nat := 20.
Definition MAX : nat := TEX7.

End GX.

(** ** Vertex descriptors

    A [GX_VtxDesc[]] is a JavaScript array of [{type}] objects.  [None] is an
    element that is [undefined] (never assigned, or a hole left by an
    assignment past the end). *)
Module VCD.
Import GX.

Abbreviation GX_VtxDesc := (option AttrType).
Abbreviation t := (list GX_VtxDesc).

(** [vcd[a]?.type] *)
Definition typeAt (v : t) (a : nat) : option AttrType := mjoin (v !! a).

(** [vcd[a]?.type === ty] *)
Definition isType (v : t) (a : nat) (ty : AttrType) : bool :=
  bool_decide (typeAt v a = Some ty).

(** [vcd[a] = { type: ty }]: an assignment past the end extends the array. *)
Definition assign (v : t) (a : nat) (ty : AttrType) : t :=
  if decide (a < length v)%nat then <[a := Some ty]> v
  else v ++ replicate (a - length v) None ++ [Some ty].

(** [vcd[a].type = ty]: a write through the element; it raises a [TypeError]
    when the element is [undefined].  The index is a JavaScript number, which
    may be negative. *)
Definition setType (v : t) (a : Z) (ty : AttrType) : option t :=
  if decide (0 ≤ a) then
    match v !! Z.to_nat a with
    | Some (Some _) => Some (<[Z.to_nat a := Some ty]> v)
    | _ => None
    end
  else None.

(** [vcd.map(x => ({ type: x?.type ?? GX.AttrType.NONE }))] *)
Definition vcdClone (v : t) : t :=
  (λ x : GX_VtxDesc, Some (default NONE x)) <$> v.

(** The local helper [b(a)]: bytes of an indexed attribute. *)
Definition idxWidth (v : t) (a : nat) : Z :=
  if isType v a INDEX16 then 2 else if isType v a INDEX8 then 1 else 0.

Definition vcdIndexBytes (v : t) : Z :=
  idxWidth v POS + idxWidth v NRM + idxWidth v CLR0 + idxWidth v TEX0
  + idxWidth v TEX1 + idxWidth v TEX2 + idxWidth v TEX3.

(** [for (i = 0; i < 8; i++) if (vcd[TEX0MTXIDX + i]?.type === DIRECT) d++] *)
Definition countTexMtx (v : t) (d0 : Z) (slots : list nat) : Z :=
  foldl (λ d i, if isType v (TEX0MTXIDX + i) DIRECT then d + 1 else d) d0 slots.

Definition vcdDirectBytes (v : t) : Z :=
  countTexMtx v (if isType v PNMTXIDX DIRECT then 1 else 0) (seq 0 8).

(** The widening loop of [forceVCDStrideTo]:
    [for (i = 0; i < 8 && need > 0; i++)], over the slots still to visit. *)
Fixpoint widenTexMtx (slots : list nat) (need : Z) (v : t) : t :=
  match slots with
  | [] => v
  | i :: rest =>
      if decide (need > 0) then
        if negb (bool_decide (default NONE (typeAt v (TEX0MTXIDX + i)) = DIRECT))
        then widenTexMtx rest (need - 1) (assign v (TEX0MTXIDX + i) DIRECT)
        else widenTexMtx rest need v
      else v
  end.

(** The narrowing loop: [for (i = 7; i >= 0 && over > 0; i--)]; the remaining
    excess is returned for the [PNMTXIDX] test that follows. *)
Fixpoint narrowTexMtx (slots : list nat) (over : Z) (v : t) : Z * t :=
  match slots with
  | [] => (over, v)
  | i :: rest =>
      if decide (over > 0) then
        if isType v (TEX0MTXIDX + i) DIRECT
        then narrowTexMtx rest (over - 1) (assign v (TEX0MTXIDX + i) NONE)
        else narrowTexMtx rest over v
      else (over, v)
  end.

Definition forceVCDStrideTo (vcdIn : t) (targetStride : Z) : t :=
  let v := vcdClone vcdIn in
  let cur := vcdIndexBytes v + vcdDirectBytes v in
  if decide (cur = targetStride) then v
  else if decide (cur < targetStride) then
    let need := targetStride - cur in
    if bool_decide (need > 0) && negb (isType v PNMTXIDX DIRECT)
    then widenTexMtx (seq 0 8) (need - 1) (assign v PNMTXIDX DIRECT)
    else widenTexMtx (seq 0 8) need v
  else
    let over := cur - targetStride in
    let '(over', v') := narrowTexMtx (rev (seq 0 8)) over v in
    if bool_decide (over' > 0) && isType v' PNMTXIDX DIRECT
    then assign v' PNMTXIDX NONE
    else v'.

#[global] Arguments forceVCDStrideTo : simpl never.

End VCD.

(** ** Bit reader

    Modelled from the spec: [LowBitReader] is declared in [util.ts]; the spec
    describes it as a bit-granular cursor over a packed stream with
    [readBits(n)], [seekBit(addr)] and byte alignment.  The cursor is the
    number of bits consumed since the base offset (the [bitIndex] the decoder
    aligns on); bits are taken from the low end of each byte, and a read that
    needs a byte outside the view raises. *)
Module Bits.
Import DV.

Record LowBitReader := {
  dv : DataView;
  baseOffs : Z;
  bitIndex : Z
}.

Definition new (d : DataView) (offs : Z) : LowBitReader :=
  {| dv := d; baseOffs := offs; bitIndex := 0 |}.

Definition bitAt (r : LowBitReader) (k : Z) : option Z :=
  b ← getUint8 (dv r) (baseOffs r + k / 8);
  Some (Z.land (Z.shiftr b (k mod 8)) 1).

Fixpoint peekFrom (r : LowBitReader) (k : Z) (n : nat) : option Z :=
  match n with
  | O => Some 0
  | S n' => b ← bitAt r k; rest ← peekFrom r (k + 1) n'; Some (b + 2 * rest)
  end.

Definition advance (r : LowBitReader) (n : Z) : LowBitReader :=
  {| dv := dv r; baseOffs := baseOffs r; bitIndex := bitIndex r + n |}.

(** [bits.get(n)] *)
Definition get (r : LowBitReader) (n : nat) : option (Z * LowBitReader) :=
  x ← peekFrom r (bitIndex r) n;
  Some (x, advance r (Z.of_nat n)).

(** [bits.drop(n)] *)
Definition drop (r : LowBitReader) (n : nat) : option LowBitReader :=
  snd <$> get r n.

(** [bits.seekBit(addr)]: reposition on the byte, then drop [addr & 7] bits. *)
Definition seekBit (r : LowBitReader) (addr : Z) : option LowBitReader :=
  drop {| dv := dv r; baseOffs := baseOffs r; bitIndex := 8 * (addr / 8) |}
       (Z.to_nat (addr mod 8)).

(** Bits that can still be read before the view ends. *)
Definition remaining (r : LowBitReader) : Z :=
  8 * (byteLength (dv r) - baseOffs r) - bitIndex r.

End Bits.

(** ** modelloader.ts: tables and header-level decoding *)
Module Loader.
Import DV.

Inductive ModelVersion :=
  | AncientMap | Beta | BetaMap | Demo | cloudtreasure | DemoMap | Final
  | FinalMap | fear | dfpt | dup | Early1 | Early2 | Early3 | Early4.

#[global] Instance ModelVersion_eq_dec : EqDecision ModelVersion.
Proof. solve_decision. Defined.

(** The members of a [FIELDS] entry that the modelled code reads.  A member
    that an entry does not define is [None]; used as a [DataView] offset an
    undefined member reads at offset 0. *)
Record ModelFields := {
  isBeta : bool;
  isMapBlock : bool;
  hasNormals : bool;
  hasBones : bool;
  oldVat : bool;
  shaderFields : Material.ShaderFields;
  posCount : Z;
  nrmOffset : option Z;
  nrmCount : option Z;
  dlOffsets : option Z;
  dlSizes : option Z;
  dlInfoOffset : option Z;
  dlInfoCount : Z;
  dlInfoSize : option Z;
  numListBits : Z;
  bitsOffsets : list Z;
  texMtxCountField : option Z
}.

Definition betaEntry (map : bool) (sf : Material.ShaderFields) (normals bones : bool)
    (pc : Z) (no nc : option Z) (dlo dls dlc : Z) (bo : list Z) (tm : option Z)
  : ModelFields :=
  {| isBeta := true; isMapBlock := map; hasNormals := normals; hasBones := bones;
     oldVat := true; shaderFields := sf; posCount := pc; nrmOffset := no;
     nrmCount := nc; dlOffsets := Some dlo; dlSizes := Some dls;
     dlInfoOffset := None; dlInfoCount := dlc; dlInfoSize := None;
     numListBits := 6; bitsOffsets := bo; texMtxCountField := tm |}.

Definition tableEntry (map : bool) (sf : Material.ShaderFields) (normals bones old : bool)
    (pc : Z) (no nc : option Z) (dio dic dis nlb : Z) (bo : list Z) (tm : option Z)
  : ModelFields :=
  {| isBeta := false; isMapBlock := map; hasNormals := normals; hasBones := bones;
     oldVat := old; shaderFields := sf; posCount := pc; nrmOffset := no;
     nrmCount := nc; dlOffsets := None; dlSizes := None;
     dlInfoOffset := Some dio; dlInfoCount := dic; dlInfoSize := Some dis;
     numListBits := nlb; bitsOffsets := bo; texMtxCountField := tm |}.

(** [FIELDS[version]]; the table has no entry for [cloudtreasure]. *)
Definition FIELDS (v : ModelVersion) : option ModelFields :=
  match v with
  | AncientMap => Some (betaEntry true Material.ANCIENT_MAP_SHADER_FIELDS false false
                          0x90 None None 0x6c 0x70 0x99 [0x7c] None)
  | Beta => Some (betaEntry false Material.BETA_MODEL_SHADER_FIELDS true true
                    0x9e (Some 0x28) (Some 0xa0) 0x88 0x8c 0xac [0x90] (Some 0xaf))
  | BetaMap => Some (betaEntry true Material.BETA_MAP_SHADER_FIELDS false false
                       0x9e None None 0x6c 0x70 0x99 [0x7c] (Some 0xaf))
  | Demo => Some (tableEntry false Material.SFADEMO_MODEL_SHADER_FIELDS true true true
                    0xcc (Some 0x2c) (Some 0xce) 0xb8 0xc9 0x34 8 [0xbc] None)
  | cloudtreasure => None
  | DemoMap => Some (tableEntry true Material.SFADEMO_MAP_SHADER_FIELDS false false true
                       0x90 (Some 0) (Some 0) 0x68 0x9f 0x34 8 [0x74] None)
  | Final => Some (tableEntry false Material.SFA_SHADER_FIELDS true true false
                     0xe4 (Some 0x2c) (Some 0xe6) 0xd0 0xf5 0x1c 8 [0xd4] (Some 0xfa))
  | FinalMap => Some (tableEntry true Material.SFA_SHADER_FIELDS false false false
                        0x90 (Some 0) (Some 0) 0x68 0xa1 0x1c 8 [0x78; 0x7c; 0x80] None)
  | fear => Some (tableEntry true Material.VERY_EARLY_2001 false false true
                    0x8e (Some 0) (Some 0) 0x6c 0xa5 0x34 6 [0x78; 0x80; 0x88] None)
  | dfpt => Some (tableEntry true Material.VERY_EARLY_2001 false false true
                    0x8e (Some 0) (Some 0) 0x68 0x9f 0x34 6 [0x74; 0x7c; 0x84] None)
  | dup => Some (tableEntry true Material.SFADEMO_MAP_SHADER_FIELDS false false true
                   0x8e (Some 0) (Some 0) 0x68 0x9f 0x34 8 [0x74; 0x7c; 0x84] None)
  | Early1 => Some (tableEntry true Material.SFADEMO_MAP_SHADER_FIELDS false false true
                      0x8e (Some 0) (Some 0) 0x68 0x9f 0x34 8 [0x74; 0x7c; 0x84] None)
  | Early2 => Some (tableEntry true Material.EARLY2_MAP_SHADER_FIELDS false false true
                      0x8e (Some 0) (Some 0) 0x68 0x9f 0x38 8 [0x74; 0x7c; 0x84] None)
  | Early3 => Some (tableEntry true Material.EARLY3_MAP_SHADER_FIELDS false false true
                      0x8e (Some 0) (Some 0) 0x68 0x9f 0x38 8 [0x78; 0x7c; 0x80] None)
  | Early4 => Some (tableEntry true Material.SFA_SHADER_FIELDS false false true
                      0x8e (Some 0) (Some 0) 0x68 0x9f 0x38 8 [0x78; 0x7c; 0x80] None)
  end.

(** [fields.x] used as an offset. *)
Definition offs (o : option Z) : Z := default 0 o.

Record DisplayListInfo := {
  offset : Z;
  size : Z;
  aabb : option (list Z);          (* the six raw 16-bit bounds *)
  specialBitAddress : option Z;
  sortLayer : option Z
}.








(** *** Normal buffer padding *)

(** [for (j = 0; j < nrmStride; j++) dst[off + j] = src[tailStart + j] ?? 0];
    a typed-array store outside the array is ignored. *)
Definition copyRecord (src : list Z) (tailStart off : Z) (nrmStride : nat)
    (dst : list Z) : list Z :=
  foldl (λ d j, <[Z.to_nat (off + Z.of_nat j) :=
                    default 0 (src !! Z.to_nat (tailStart + Z.of_nat j))]> d)
        dst (seq 0 nrmStride).

(** [for (off = src.byteLength; off < needed; off += nrmStride)] *)
Fixpoint padLoop (fuel : nat) (src : list Z) (tailStart needed : Z) (nrmStride : nat)
    (off : Z) (dst : list Z) : list Z :=
  match fuel with
  | O => dst
  | S fuel' =>
      if decide (off < needed)
      then padLoop fuel' src tailStart needed nrmStride (off + Z.of_nat nrmStride)
                   (copyRecord src tailStart off nrmStride dst)
      else dst
  end.

(** [dst = new Uint8Array(needed); dst.set(src)] for [src] shorter than [dst]. *)
Definition zeroFilledWith (needed : Z) (src : list Z) : list Z :=
  src ++ replicate (Z.to_nat needed - length src) 0.

(** The guard of [loadModel] on [model.originalNrmBuffer]. *)
Definition padNormals (hasNormals nbt : bool) (posCount : Z) (src : list Z) : list Z :=
  if hasNormals && bool_decide (byteLength src > 0) then
    let nrmStride := if nbt then 9%nat else 3%nat in
    let needed := posCount * Z.of_nat nrmStride in
    if decide (byteLength src < needed) then
      let tailStart := Z.max 0 (byteLength src - Z.of_nat nrmStride) in
      padLoop (Z.to_nat needed) src tailStart needed nrmStride (byteLength src)
              (zeroFilledWith needed src)
    else src
  else src.

(** The last [n] bytes of a buffer. *)
Definition lastRecord (n : nat) (src : list Z) : list Z := drop (length src - n) src.

End Loader.

(** ** modelloader.ts: the command-stream interpreter *)
Module Interp.
Import DV GX VCD.
Export Loader.

(** Which factory call made the material of a shape: the slot material of
    [setShader], the Early-3 alpha-compare clone, or the water or fur material
    of a special bitstream. *)
Inductive MaterialRef :=
  | SlotMaterial (num : Z)
  | AlphaCompareClone (num : Z)
  | WaterMaterial (num : Z)
  | FurMaterial (num : Z).

(** The construction site of a shape inside [runBitstream]. *)
Inductive Attempt :=
  | Primary
  | AltStride (s : Z)
  | SkipHeader
  | NoPnMtx
  | NoPnMtxSkipHeader
  | WaterDirect
  | FromSpecial.

(** A [Shape], by the arguments its [ShapeGeometry] was built from: the
    descriptor, the display-list window, the skinning flag given to
    [setPnMatrixMap], the material and the dev-geometry flag. *)
Record Shape := {
  geomVcd : VCD.t;
  geomOffset : Z;
  geomSize : Z;
  skinned : bool;
  material : MaterialRef;
  isDevGeometry : bool;
  via : Attempt
}.

Record FurShape := { shape : Shape; numLayers : Z }.

(** The values [loadModel] has computed before the interpreter runs. *)
Record Env := {
  data : DataView;
  version : ModelVersion;
  fields : ModelFields;
  dlInfos : list DisplayListInfo;
  jointCount : Z;
  texMtxCount : Z;
  hasColorTable : bool;
  isEarly34Map : bool;
  usingDummyClr : bool;
  hasSkinning : bool;
  bitsOffsetsRead : list Z         (* [bitsOffsets], as read from the file *)
}.

(** The mutable state a run works on: the reader, the current shader slot,
    the shader objects (shared with the model), the descriptor, the shape
    lists, the matrix map and the slots of [model.materials] already built. *)
Record State := {
  bits : Bits.LowBitReader;
  curShaderNum : Z;
  shaders : list Material.Shader;
  vcd : VCD.t;
  shapes : list Shape;
  waters : list Shape;
  furs : list FurShape;
  pnMatrixMap : list Z;
  materials : gset Z
}.

Inductive Outcome :=
  | Continue (s : State)     (* [break] out of the [switch]; the loop goes on *)
  | Done (s : State)         (* [done = true] *)
  | Raise (s : State).       (* an exception leaves [runBitstream] *)

Inductive Run :=
  | Finished (s : State)
  | Raised (s : State)
  | Pending (s : State).     (* the fuel of the model ran out *)

(** The result of [runSpecialBitstreamMulti]. *)
Inductive Special :=
  | SpecialShapes (out : list Shape)
  | SpecialRaised
  | SpecialPending.

(** [shaders[num]] *)
Definition shaderAt (sh : list Material.Shader) (num : Z) : option Material.Shader :=
  if decide (0 ≤ num) then sh !! Z.to_nat num else None.

(** [dlInfos[listNum]] *)
Definition dlInfoAt (l : list DisplayListInfo) (num : Z) : option DisplayListInfo :=
  if decide (0 ≤ num) then l !! Z.to_nat num else None.

(** [for (i = 0; i + 4 < bytes.length; i++)
       if (bytes[i] === 0x61 && bytes[i + 1] === 0xF3) return true] *)
Fixpoint dlHasAlphaCompare (dl : list Z) : bool :=
  match dl with
  | b0 :: tl =>
      match tl with
      | b1 :: _ :: _ :: _ :: _ =>
          (bool_decide (b0 = 0x61) && bool_decide (b1 = 0xF3)) || dlHasAlphaCompare tl
      | _ => false
      end
  | [] => false
  end.

(** [prim >= 0x80 && prim <= 0x9f] *)
Definition isDraw (prim : Z) : bool := bool_decide (0x80 ≤ prim) && bool_decide (prim ≤ 0x9f).

(** The candidate loop shared by [guessTargetStride] and
    [scanStrideCandidates]: [for (s = 2; s <= 24; s++)], with its [break]. *)
Fixpoint strideLoop (data : DataView) (dlOff endMax prim count : Z) (cands : list Z)
    (samePrim draw other : list Z) : option (list Z * list Z * list Z) :=
  match cands with
  | [] => Some (samePrim, draw, other)
  | s :: rest =>
      let pos := dlOff + 3 + count * s in
      if decide (endMax ≤ pos) then Some (samePrim, draw, other)
      else
        b ← getUint8 data pos;
        if decide (b = prim) then
          strideLoop data dlOff endMax prim count rest (samePrim ++ [s]) draw other
        else if isDraw b then
          strideLoop data dlOff endMax prim count rest samePrim (draw ++ [s]) other
        else if bool_decide (b ∈ [0x61; 0x08; 0x10; 0x20; 0x40]) then
          strideLoop data dlOff endMax prim count rest samePrim draw (other ++ [s])
        else strideLoop data dlOff endMax prim count rest samePrim draw other
  end.

Definition strideCandidates : list Z := Z.of_nat <$> seq 2 23.

(** The common prefix of both scans; [Some None] is the early [return]. *)
Definition strideScan (data : DataView) (dlOff dlSize : Z)
  : option (option (list Z * list Z * list Z)) :=
  if decide (dlSize < 4) then Some None
  else
    prim ← getUint8 data dlOff;
    if negb (isDraw prim) then Some None
    else
      count ← getUint16 data (dlOff + 1);
      if bool_decide (count = 0) || bool_decide (count > 0x4000) then Some None
      else Some <$> strideLoop data dlOff (dlOff + dlSize) prim count strideCandidates [] [] [].

Definition guessTargetStride (data : DataView) (dlOff dlSize : Z) : option (option Z) :=
  r ← strideScan data dlOff dlSize;
  Some (match r with
        | None => None
        | Some (samePrim, draw, other) =>
            match samePrim, draw, other with
            | s :: _, _, _ => Some s
            | [], s :: _, _ => Some s
            | [], [], s :: _ => Some s
            | [], [], [] => None
            end
        end).

Definition scanStrideCandidates (data : DataView) (dlOff dlSize : Z) : option (list Z) :=
  r ← strideScan data dlOff dlSize;
  Some (match r with
        | None => []
        | Some (samePrim, draw, other) => samePrim ++ draw ++ other
        end).

Definition tuneVCDForDL (data : DataView) (dlOff dlSize : Z) (baseVcd : VCD.t)
    (f : ModelFields) : option VCD.t :=
  if negb (oldVat f) || bool_decide (dlSize < 4) then Some baseVcd
  else
    target ← guessTargetStride data dlOff dlSize;
    match target with
    | None => Some baseVcd
    | Some target =>
        let curStride := vcdIndexBytes baseVcd + vcdDirectBytes baseVcd in
        if decide (curStride = target) then Some baseVcd
        else
          let forced := forceVCDStrideTo baseVcd target in
          let newStride := vcdIndexBytes forced + vcdDirectBytes forced in
          Some (if decide (newStride = target) then forced else baseVcd)
    end.

#[global] Arguments strideScan : simpl never.
#[global] Arguments scanStrideCandidates : simpl never.
#[global] Arguments guessTargetStride : simpl never.
#[global] Arguments tuneVCDForDL : simpl never.

(** [3 + cnt * (idxBytes + direct)] *)
Definition neededBytes (cnt : Z) (v : VCD.t) : Z :=
  3 + cnt * (vcdIndexBytes v + vcdDirectBytes v).

(** The guard on tiny display lists; [true] is its [break].  The sniff is
    inside a [try] whose [catch] ignores a failed read. *)
Definition tinyDlSkip (data : DataView) (dl : DisplayListInfo) (tunedVcd : VCD.t) : bool :=
  match getUint8 data (offset dl), getUint16 data (offset dl + 1) with
  | Some prim, Some cnt =>
      isDraw prim && bool_decide (cnt > 0)
      && bool_decide (neededBytes cnt tunedVcd > size dl)
  | _, _ => false
  end.

Section Decoder.
Variable SF : ShaderFlagsEnum.
Variable AF : ShaderAttrFlagsEnum.

(** [new ShapeGeometry(vtxArrays, vcd, vat, displayList, ...)] of [shapes.ts]
    together with the setters that follow it: the collaborator either builds
    the geometry of a display list under a descriptor or throws. *)
Variable buildGeometry : VCD.t → DataView → bool.

Variable E : Env.

(** *** readVertexDesc *)

(** [texmtxNum = 7; for (i = 0; i < texMtxCount; i++) { ...; texmtxNum--; }] *)
Fixpoint packTexMtx (n : nat) (texmtxNum : Z) (v : VCD.t) : option VCD.t :=
  match n with
  | O => Some v
  | S n' =>
      v' ← setType v (Z.of_nat TEX0MTXIDX + texmtxNum) DIRECT;
      packTexMtx n' (texmtxNum - 1) v'
  end.

(** The block under [fields.hasBones && jointCount >= 2]. *)
Definition matrixSlots (sh : Material.Shader) (v : VCD.t) : option VCD.t :=
  if hasBones (fields E) && bool_decide (2 ≤ jointCount E) then
    v0 ← setType v (Z.of_nat PNMTXIDX) DIRECT;
    v1 ← (if Material.hasHemisphericProbe sh || Material.hasReflectiveProbe sh then
            if Material.hasNBTTexture sh then
              a ← setType v0 (Z.of_nat TEX0MTXIDX + 0) DIRECT;
              b ← setType a (Z.of_nat TEX0MTXIDX + 1) DIRECT;
              setType b (Z.of_nat TEX0MTXIDX + 2) DIRECT
            else setType v0 (Z.of_nat TEX0MTXIDX + 0) DIRECT
          else Some v0);
    packTexMtx (Z.to_nat (texMtxCount E)) 7 v1
  else Some v.

(** [bits.get(1) ? INDEX16 : INDEX8] *)
Definition indexType (b : Z) : AttrType := if decide (b = 0) then INDEX8 else INDEX16.

(** [wantClr0] *)
Definition wantClr0 (sh : Material.Shader) : bool :=
  (hasColorTable E && isMapBlock (fields E))
  || flagSet (Material.attrFlags sh) (ATTR_CLR AF).

(** The colour block: the type given to [CLR0] and the reader after it. *)
Definition readClr0 (r : Bits.LowBitReader) (sh : Material.Shader)
  : option (AttrType * Bits.LowBitReader) :=
  if wantClr0 sh then
    '(b, r') ← Bits.get r 1;
    Some (if isEarly34Map E then INDEX16 else indexType b, r')
  else Some (NONE, r).

(** [for (t = 0; t < 8; t++) vcd[TEX0 + t].type = ...] *)
Definition texCoordTypes (nLayers : nat) (ty : AttrType) (v : VCD.t) : option VCD.t :=
  foldl (λ acc t, v' ← acc;
                  setType v' (Z.of_nat (TEX0 + t))
                          (if decide (t < nLayers)%nat then ty else NONE))
        (Some v) (seq 0 8).

(** The byte alignment of the Demo/Beta command reader after a descriptor. *)
Definition alignAfterVcd (r : Bits.LowBitReader) : option Bits.LowBitReader :=
  if oldVat (fields E) then
    let misalign := Z.land (Bits.bitIndex r) 7 in
    if decide (misalign = 0) then Some r else Bits.drop r (Z.to_nat (8 - misalign))
  else Some r.

(** [readVertexDesc(bits, shader)]; an [undefined] shader raises at its first
    member access, and no path returns without one. *)
Definition readVertexDesc (r : Bits.LowBitReader) (shader : option Material.Shader)
  : option (VCD.t * Bits.LowBitReader) :=
  sh ← shader;
  v0 ← matrixSlots sh (replicate (S MAX) (Some NONE));
  '(bp, r1) ← Bits.get r 1;
  v1 ← setType v0 (Z.of_nat POS) (indexType bp);
  '(tn, r2) ← (if hasNormals (fields E) && flagSet (Material.attrFlags sh) (ATTR_NRM AF)
               then '(bn, r') ← Bits.get r1 1; Some (indexType bn, r')
               else Some (NONE, r1));
  v2 ← setType v1 (Z.of_nat NRM) tn;
  '(tc, r3) ← readClr0 r2 sh;
  v3 ← setType v2 (Z.of_nat CLR0) tc;
  '(v4, r4) ← (if decide (0 < length (Material.sh_layers sh))%nat then
                 '(bt, r') ← Bits.get r3 1;
                 v' ← texCoordTypes (length (Material.sh_layers sh)) (indexType bt) v3;
                 Some (v', r')
               else
                 v' ← texCoordTypes 0 NONE v3; Some (v', r3));
  r5 ← alignAfterVcd r4;
  Some (v4, r5).

(** *** runSpecialBitstreamMulti *)

Inductive SpecialKind := WaterSpecial | FurSpecial.

(** The [shouldKeepShader] callbacks of the two call sites. *)
Definition shouldKeepShader (k : SpecialKind) (sh : Material.Shader) : bool :=
  match k with
  | WaterSpecial => flagSet (Material.flags sh) (Water SF)
                    && negb (flagSet (Material.flags sh) (Lava SF))
  | FurSpecial => flagSet (Material.flags sh)
                    (Z.lor (Z.lor (ShortFur SF) (MediumFur SF)) (LongFur SF))
  end.

Definition specialMaterial (k : SpecialKind) (num : Z) : MaterialRef :=
  match k with WaterSpecial => WaterMaterial num | FurSpecial => FurMaterial num end.

Record SpecialState := {
  sbits : Bits.LowBitReader;
  locShaderNum : Z;
  locVcd : VCD.t;
  out : list Shape
}.

(** [for (i = 0; i < n; i++) bits.get(8)] *)
Fixpoint skipBones (n : nat) (r : Bits.LowBitReader) : option Bits.LowBitReader :=
  match n with
  | O => Some r
  | S n' => '(_, r') ← Bits.get r 8; skipBones n' r'
  end.

Definition numListBitsNat : nat := Z.to_nat (numListBits (fields E)).

(** One turn of the [while (!done)] loop; [inl] carries on, [inr] is the
    returned array, [None] an exception. *)
Definition specialStep (k : SpecialKind) (sh : list Material.Shader) (st : SpecialState)
  : option (SpecialState + list Shape) :=
  '(op, r) ← Bits.get (sbits st) 4;
  if decide (op = 1) then
    '(shaderNum, r') ← Bits.get r 6;
    Some (inl {| sbits := r'; locShaderNum := shaderNum; locVcd := locVcd st; out := out st |})
  else if decide (op = 3) then
    '(v, r') ← readVertexDesc r (shaderAt sh (locShaderNum st));
    Some (inl {| sbits := r'; locShaderNum := locShaderNum st; locVcd := v; out := out st |})
  else if decide (op = 4) then
    '(numBones, r') ← Bits.get r 4;
    r'' ← skipBones (Z.to_nat numBones) r';
    Some (inl {| sbits := r''; locShaderNum := locShaderNum st; locVcd := locVcd st;
                 out := out st |})
  else if decide (op = 2) then
    '(listNum, r') ← Bits.get r numListBitsNat;
    let st' := {| sbits := r'; locShaderNum := locShaderNum st; locVcd := locVcd st;
                  out := out st |} in
    if decide (Z.of_nat (length (dlInfos E)) ≤ listNum) then Some (inl st')
    else
      locShader ← shaderAt sh (locShaderNum st);
      if negb (shouldKeepShader k locShader) then Some (inl st')
      else
        dlInfo ← dlInfoAt (dlInfos E) listNum;
        displayList ← dataSubarrayLen (data E) (offset dlInfo) (size dlInfo);
        if buildGeometry (locVcd st) displayList then
          Some (inl {| sbits := r'; locShaderNum := locShaderNum st; locVcd := locVcd st;
                       out := out st ++
                         [{| geomVcd := locVcd st; geomOffset := offset dlInfo;
                             geomSize := size dlInfo; skinned := hasSkinning E;
                             material := specialMaterial k (locShaderNum st);
                             isDevGeometry := false; via := FromSpecial |}] |})
        else None
  else Some (inr (out st)).      (* [Opcode.End] and [default]: [done = true] *)

Fixpoint specialLoop (fuel : nat) (k : SpecialKind) (sh : list Material.Shader)
    (st : SpecialState) : Special :=
  match fuel with
  | O => SpecialPending
  | S fuel' =>
      match specialStep k sh st with
      | None => SpecialRaised
      | Some (inr o) => SpecialShapes o
      | Some (inl st') => specialLoop fuel' k sh st'
      end
  end.

(** Every turn of either loop consumes at least four bits of the view. *)
Definition loopFuel : nat := S (Z.to_nat (8 * byteLength (data E))).

Definition runSpecialBitstreamMulti (bitsOffset bitAddress : Z) (k : SpecialKind)
    (sh : list Material.Shader) (fallbackVcd : VCD.t) : Special :=
  match Bits.seekBit (Bits.new (data E) bitsOffset) bitAddress with
  | None => SpecialRaised
  | Some r =>
      specialLoop loopFuel k sh
        {| sbits := r; locShaderNum := 0; locVcd := fallbackVcd; out := [] |}
  end.

(** *** runBitstream *)

(** Bind a fallible read inside a turn: an exception leaves the interpreter
    with the state reached so far. *)
Definition orRaise {A} (o : option A) (s : State) (k : A → Outcome) : Outcome :=
  match o with Some a => k a | None => Raise s end.

Notation "x ←? o 'raising' s ; k" := (orRaise o s (λ x : _, k))
  (at level 20, o at level 100, s at level 9, k at level 200, only parsing).
Notation "' x ←? o 'raising' s ; k" := (orRaise o s (λ x : _, k))
  (at level 20, x pattern, o at level 100, s at level 9, k at level 200, only parsing).

Definition withBits (s : State) (r : Bits.LowBitReader) : State :=
  {| bits := r; curShaderNum := curShaderNum s; shaders := shaders s; vcd := vcd s;
     shapes := shapes s; waters := waters s; furs := furs s;
     pnMatrixMap := pnMatrixMap s; materials := materials s |}.

Definition withShaders (s : State) (sh : list Material.Shader) : State :=
  {| bits := bits s; curShaderNum := curShaderNum s; shaders := sh; vcd := vcd s;
     shapes := shapes s; waters := waters s; furs := furs s;
     pnMatrixMap := pnMatrixMap s; materials := materials s |}.

Definition withVcd (s : State) (v : VCD.t) : State :=
  {| bits := bits s; curShaderNum := curShaderNum s; shaders := shaders s; vcd := v;
     shapes := shapes s; waters := waters s; furs := furs s;
     pnMatrixMap := pnMatrixMap s; materials := materials s |}.

Definition pushShape (s : State) (x : Shape) : State :=
  {| bits := bits s; curShaderNum := curShaderNum s; shaders := shaders s; vcd := vcd s;
     shapes := shapes s ++ [x]; waters := waters s; furs := furs s;
     pnMatrixMap := pnMatrixMap s; materials := materials s |}.

Definition pushWaters (s : State) (ws : list Shape) : State :=
  {| bits := bits s; curShaderNum := curShaderNum s; shaders := shaders s; vcd := vcd s;
     shapes := shapes s; waters := waters s ++ ws; furs := furs s;
     pnMatrixMap := pnMatrixMap s; materials := materials s |}.

Definition pushFur (s : State) (x : FurShape) : State :=
  {| bits := bits s; curShaderNum := curShaderNum s; shaders := shaders s; vcd := vcd s;
     shapes := shapes s; waters := waters s; furs := furs s ++ [x];
     pnMatrixMap := pnMatrixMap s; materials := materials s |}.

Definition withPnMatrixMap (s : State) (m : list Z) : State :=
  {| bits := bits s; curShaderNum := curShaderNum s; shaders := shaders s; vcd := vcd s;
     shapes := shapes s; waters := waters s; furs := furs s;
     pnMatrixMap := m; materials := materials s |}.

Definition withCurShader (s : State) (num : Z) (mats : gset Z) : State :=
  {| bits := bits s; curShaderNum := num; shaders := shaders s; vcd := vcd s;
     shapes := shapes s; waters := waters s; furs := furs s;
     pnMatrixMap := pnMatrixMap s; materials := mats |}.

Definition curShader (s : State) : option Material.Shader :=
  shaderAt (shaders s) (curShaderNum s).

(** [setShader(num)].  Building a material is the factory's business; the
    decoder itself raises only when it clones an [undefined] shader for the
    dummy colour table. *)
Definition setShader (s : State) (num : Z) : Outcome :=
  let s' := withCurShader s num (materials s) in
  if decide (num ∈ materials s) then Continue s'
  else if isMapBlock (fields E) && usingDummyClr E then
    match shaderAt (shaders s) num with
    | Some _ => Continue (withCurShader s num (materials s ∪ {[num]}))
    | None => Raise s'
    end
  else Continue (withCurShader s num (materials s ∪ {[num]})).

(** [curShader.flags |= ShaderFlags.AlphaCompare], on the shared object. *)
Definition markAlphaCompare (sh : list Material.Shader) (num : Z) : list Material.Shader :=
  match shaderAt sh num with
  | Some x =>
      <[Z.to_nat num :=
          Material.setFlagsAttr x (Z.lor (Material.flags x) (AlphaCompare SF))
                                (Material.attrFlags x)]> sh
  | None => sh
  end.

Definition isEarly1 : bool :=
  bool_decide (version E = Early1) || Material.isEarly1 (shaderFields (fields E)).
Definition isEarly3 : bool :=
  bool_decide (version E = Early3) || Material.isEarly3 (shaderFields (fields E)).
Definition isold : bool :=
  bool_decide (version E = Early1) || Material.isold (shaderFields (fields E)).

(** [(bitsOffsets.length >= 3 && bitsOffsets[2] !== 0) ? 2 : bitsOffsets.length - 1] *)
Definition thirdOrLast : Z :=
  let bo := bitsOffsetsRead E in
  if bool_decide (3 ≤ length bo)%nat && negb (bool_decide (bo !! 2%nat = Some 0))
  then 2 else Z.of_nat (length bo) - 1.

Definition waterStreamIndex : Z :=
  let bo := bitsOffsetsRead E in
  if isEarly1 && bool_decide (0 < length bo)%nat then thirdOrLast
  else if isEarly3 && bool_decide (0 < length bo)%nat then Z.of_nat (length bo) - 1
  else if isold && bool_decide (0 < length bo)%nat then thirdOrLast
  else -1.

Definition isDedicatedWaterPass (drawStep : Z) : bool :=
  isMapBlock (fields E) && bool_decide (0 ≤ waterStreamIndex)
  && bool_decide (drawStep = waterStreamIndex).

(** [dlInfo.specialBitAddress !== undefined && dlInfo.specialBitAddress !== 0] *)
Definition hasSpecial (dl : DisplayListInfo) : bool :=
  match specialBitAddress dl with Some a => negb (bool_decide (a = 0)) | None => false end.

Definition mkShape (v : VCD.t) (o sz : Z) (sk : bool) (m : MaterialRef) (dev : bool)
    (a : Attempt) : Shape :=
  {| geomVcd := v; geomOffset := o; geomSize := sz; skinned := sk; material := m;
     isDevGeometry := dev; via := a |}.

(** Retry Z: [for (const s of altSeq)], stopping at the first stride whose
    forced descriptor builds. *)
Fixpoint retryAltStrides (altSeq : list Z) (v : VCD.t) (displayList : DataView)
    (mk : VCD.t → Attempt → Shape) : option Shape :=
  match altSeq with
  | [] => None
  | s :: rest =>
      let vcdAlt := forceVCDStrideTo v s in
      if decide (vcdIndexBytes vcdAlt + vcdDirectBytes vcdAlt = s) then
        if buildGeometry vcdAlt displayList then Some (mk vcdAlt (AltStride s))
        else retryAltStrides rest v displayList mk
      else retryAltStrides rest v displayList mk
  end.

(** A construction inside [try]: a window that does not fit is one more
    caught failure. *)
Definition tryBuild (v : VCD.t) (o sz : Z) : bool :=
  match dataSubarrayLen (data E) o sz with
  | Some dl => buildGeometry v dl
  | None => false
  end.

(** Retries A, B and C, after the alternative strides have failed. *)
Definition retryHeaderAndMatrix (dl : DisplayListInfo) (tunedVcd : VCD.t)
    (m : MaterialRef) (dev : bool) : option Shape :=
  let o := offset dl in
  let sz := size dl in
  if bool_decide (sz > 0x20) && tryBuild tunedVcd (o + 0x20) (sz - 0x20) then
    Some (mkShape tunedVcd (o + 0x20) (sz - 0x20) (hasSkinning E) m dev SkipHeader)
  else if isType tunedVcd PNMTXIDX DIRECT then
    let vcdRetry := assign tunedVcd PNMTXIDX NONE in
    if tryBuild vcdRetry o sz then
      Some (mkShape vcdRetry o sz false m dev NoPnMtx)
    else if bool_decide (sz > 0x20) && tryBuild vcdRetry (o + 0x20) (sz - 0x20) then
      Some (mkShape vcdRetry (o + 0x20) (sz - 0x20) false m dev NoPnMtxSkipHeader)
    else None
  else None.

(** The [try]/[catch] chain of the normal geometry path: the shape it pushes,
    if any.  [None] at the outer level is an exception of the stride scan,
    which runs inside the [catch] block, outside any [try]. *)
Definition buildWithRetries (dl : DisplayListInfo) (displayList : DataView)
    (v tunedVcd : VCD.t) (m : MaterialRef) (dev : bool) : option (option Shape) :=
  if buildGeometry tunedVcd displayList then
    Some (Some (mkShape tunedVcd (offset dl) (size dl) (hasSkinning E) m dev Primary))
  else
    altSeq ← scanStrideCandidates (data E) (offset dl) (size dl);
    match retryAltStrides altSeq v displayList
            (λ va a, mkShape va (offset dl) (size dl) (hasSkinning E) m dev a) with
    | Some x => Some (Some x)
    | None => Some (retryHeaderAndMatrix dl tunedVcd m dev)
    end.

Definition furFlags : Z := Z.lor (Z.lor (ShortFur SF) (MediumFur SF)) (LongFur SF).

(** [(flags & LongFur) ? 16 : (flags & MediumFur) ? 8 : 4] *)
Definition furLayers (flags : Z) : Z :=
  if flagSet flags (LongFur SF) then 16
  else if flagSet flags (MediumFur SF) then 8 else 4.

(** The fur path that ends a normal [CallDL]. *)
Definition furPath (s : State) (bitsOffset drawStep : Z) (dl : DisplayListInfo)
    (sh : Material.Shader) : Outcome :=
  if bool_decide (drawStep = 0) && flagSet (Material.flags sh) furFlags && hasSpecial dl then
    match runSpecialBitstreamMulti bitsOffset (default 0 (specialBitAddress dl))
            FurSpecial (shaders s) (vcd s) with
    | SpecialShapes (firstFur :: _) =>
        Continue (pushFur s {| shape := firstFur;
                               numLayers := furLayers (Material.flags sh) |})
    | SpecialShapes [] => Continue s
    | SpecialRaised | SpecialPending => Raise s
    end
  else Continue s.

(** The water path: the special stream first, then the display list itself,
    built outside any [try]. *)
Definition waterPath (s : State) (bitsOffset : Z) (dl : DisplayListInfo)
    (displayList : DataView) : Outcome :=
  let fromSpecial :=
    if hasSpecial dl then
      runSpecialBitstreamMulti bitsOffset (default 0 (specialBitAddress dl))
        WaterSpecial (shaders s) (vcd s)
    else SpecialShapes [] in
  match fromSpecial with
  | SpecialRaised | SpecialPending => Raise s
  | SpecialShapes (w :: ws) => Continue (pushWaters s (w :: ws))
  | SpecialShapes [] =>
      tunedVcd ←? tuneVCDForDL (data E) (offset dl) (size dl) (vcd s) (fields E) raising s;
      if buildGeometry tunedVcd displayList then
        Continue (pushWaters s
          [mkShape tunedVcd (offset dl) (size dl) (hasSkinning E)
                   (WaterMaterial (curShaderNum s)) false WaterDirect])
      else Raise s
  end.

(** The normal geometry path. *)
Definition normalPath (s : State) (bitsOffset drawStep : Z) (dl : DisplayListInfo)
    (displayList : DataView) (sh : Material.Shader) : Outcome :=
  let m :=
    if Material.isEarly3 (shaderFields (fields E))
       && negb (flagSet (Material.flags sh) (AlphaCompare SF))
       && dlHasAlphaCompare displayList
    then AlphaCompareClone (curShaderNum s) else SlotMaterial (curShaderNum s) in
  let dev := flagSet (Material.flags sh) (DevGeometry SF) in
  tunedVcd ←? tuneVCDForDL (data E) (offset dl) (size dl) (vcd s) (fields E) raising s;
  if tinyDlSkip (data E) dl tunedVcd then Continue s
  else
    built ←? buildWithRetries dl displayList (vcd s) tunedVcd m dev raising s;
    match built with
    | Some x => furPath (pushShape s x) bitsOffset drawStep dl sh
    | None => furPath s bitsOffset drawStep dl sh
    end.

(** [case Opcode.CallDL], after the list number has been read. *)
Definition callDL (s : State) (bitsOffset drawStep listNum : Z) : Outcome :=
  if decide (Z.of_nat (length (dlInfos E)) ≤ listNum) then Continue s
  else
    match dlInfoAt (dlInfos E) listNum with
    | None => Continue s
    | Some dl =>
        if bool_decide (offset dl = 0) || bool_decide (size dl = 0)
           || bool_decide (offset dl + size dl > byteLength (data E))
        then Continue s
        else
          displayList ←? dataSubarrayLen (data E) (offset dl) (size dl) raising s;
          sh0 ←? curShader s raising s;
          let s1 :=
            if (Material.isEarly1 (shaderFields (fields E))
                || Material.isEarly3 (shaderFields (fields E)))
               && negb (flagSet (Material.flags sh0) (AlphaCompare SF))
               && dlHasAlphaCompare displayList
            then withShaders s (markAlphaCompare (shaders s) (curShaderNum s))
            else s in
          sh ←? curShader s1 raising s1;
          let shaderSaysWater := flagSet (Material.flags sh) (Water SF) in
          let shaderSaysLava := flagSet (Material.flags sh) (Lava SF) in
          if negb shaderSaysLava && (shaderSaysWater || isDedicatedWaterPass drawStep)
          then waterPath s1 bitsOffset dl displayList
          else normalPath s1 bitsOffset drawStep dl displayList sh
    end.

(** [for (i = 0; i < numBones; i++) pnMatrixMap[i] = bits.get(8)]: the map is
    written as the loop goes, also when a later read raises. *)
Fixpoint readMatrices (n : nat) (i : nat) (s : State) : Outcome :=
  match n with
  | O => Continue s
  | S n' =>
      '(b, r) ←? Bits.get (bits s) 8 raising s;
      readMatrices n' (S i) (withPnMatrixMap (withBits s r) (<[i := b]> (pnMatrixMap s)))
  end.

(** One turn of the [while (!done)] loop of [runBitstream]. *)
Definition step (bitsOffset drawStep : Z) (s : State) : Outcome :=
  '(opcode, r) ←? Bits.get (bits s) 4 raising s;
  let s := withBits s r in
  if decide (opcode = 1) then
    '(shaderNum, r') ←? Bits.get r 6 raising s;
    setShader (withBits s r') shaderNum
  else if decide (opcode = 2) then
    '(listNum, r') ←? Bits.get r numListBitsNat raising s;
    callDL (withBits s r') bitsOffset drawStep listNum
  else if decide (opcode = 3) then
    '(v, r') ←? readVertexDesc r (curShader s) raising s;
    Continue (withVcd (withBits s r') v)
  else if decide (opcode = 4) then
    '(numBones, r') ←? Bits.get r 4 raising s;
    if decide (numBones > 10) then Raise (withBits s r')
    else readMatrices (Z.to_nat numBones) 0 (withBits s r')
  else if decide (opcode = 5) then Done s
  else Continue s.           (* [default: break], the unknown opcode is skipped *)

Fixpoint runLoop (fuel : nat) (bitsOffset drawStep : Z) (s : State) : Run :=
  match fuel with
  | O => Pending s
  | S fuel' =>
      match step bitsOffset drawStep s with
      | Continue s' => runLoop fuel' bitsOffset drawStep s'
      | Done s' => Finished s'
      | Raise s' => Raised s'
      end
  end.

(** The part of a [ModelShapes] and of the model that the runs share. *)
Record Shared := {
  m_shaders : list Material.Shader;
  m_shapes : list (list Shape);          (* [modelShapes.shapes], by draw step *)
  m_waters : list Shape;
  m_furs : list FurShape;
  m_pnMatrixMap : list Z;
  m_materials : gset Z
}.

Definition initState (sh : Shared) (r : Bits.LowBitReader) : State :=
  {| bits := r; curShaderNum := 0; shaders := m_shaders sh; vcd := [];
     shapes := []; waters := m_waters sh; furs := m_furs sh;
     pnMatrixMap := m_pnMatrixMap sh; materials := m_materials sh |}.

Definition runBitstream (sh : Shared) (bitsOffset drawStep : Z) : Run :=
  let s0 := initState sh (Bits.new (data E) bitsOffset) in
  if decide (bitsOffset = 0) then Finished s0
  else
    match setShader s0 0 with
    | Continue s1 => runLoop loopFuel bitsOffset drawStep s1
    | Done s1 => Finished s1
    | Raise s1 => Raised s1
    end.




End Decoder.
End Interp.

(** ** Module-level tables and the per-model copies

    [VAT], [VAT_NBT], [OLD_VAT], [OLD_VAT_NBT] and the entries of [FIELDS] are
    objects created once and shared by every call of [loadModel].  The store
    maps references to objects, so that a write through a shared reference is
    seen by every holder of it. *)
Module Globals.
Import Loader.

Inductive CompType := U8 | S8 | S16 | F32 | RGBA8 | RGBA4.
Inductive CompCnt := Cnt0 | POS_XYZ | NRM_XYZ | NRM_NBT | CLR_RGBA | TEX_ST.

Record GX_VtxAttrFmt := { compType : CompType; compShift : Z; compCnt : CompCnt }.

Definition fmt (t : CompType) (s : Z) (c : CompCnt) : GX_VtxAttrFmt :=
  {| compType := t; compShift := s; compCnt := c |}.

(** A row after the initial loop: [{ compType: U8, compShift: 0, compCnt: 0 }]
    for every attribute up to [GX.Attr.MAX], then the listed assignments. *)
Definition vatRow (entries : list (nat * GX_VtxAttrFmt)) : list GX_VtxAttrFmt :=
  foldl (λ r e, <[e.1 := e.2]> r) (replicate (S GX.MAX) (fmt U8 0 Cnt0)) entries.

Definition texRow (a : nat) (shift : Z) : nat * GX_VtxAttrFmt := (a, fmt S16 shift TEX_ST).

Definition generateVat (old nbt : bool) : list (list GX_VtxAttrFmt) :=
  let nrm := fmt S8 0 (if nbt then NRM_NBT else NRM_XYZ) in
  let tex4 (shift : Z) :=
    [texRow GX.TEX0 shift; texRow GX.TEX1 shift; texRow GX.TEX2 shift; texRow GX.TEX3 shift] in
  [ vatRow [(GX.POS, fmt S16 0 POS_XYZ); (GX.CLR0, fmt RGBA8 0 CLR_RGBA);
            (GX.TEX0, fmt S16 7 TEX_ST)];
    vatRow [(GX.POS, fmt S16 2 POS_XYZ); (GX.CLR0, fmt RGBA8 0 CLR_RGBA);
            (GX.TEX0, fmt F32 0 TEX_ST)];
    vatRow [(GX.POS, fmt F32 0 POS_XYZ); (GX.NRM, fmt F32 0 NRM_XYZ);
            (GX.CLR0, fmt RGBA8 0 CLR_RGBA); (GX.TEX0, fmt F32 0 TEX_ST);
            (GX.TEX1, fmt F32 0 TEX_ST)];
    vatRow ([(GX.POS, fmt S16 8 POS_XYZ); (GX.NRM, nrm);
             (GX.CLR0, fmt RGBA4 0 CLR_RGBA)] ++ tex4 10);
    vatRow [(GX.POS, fmt F32 0 POS_XYZ); (GX.NRM, fmt F32 0 NRM_XYZ);
            (GX.CLR0, fmt RGBA8 0 CLR_RGBA); (GX.TEX0, fmt S16 7 TEX_ST)];
    vatRow ([(GX.POS, fmt S16 (if old then 0 else 3) POS_XYZ); (GX.NRM, nrm);
             (GX.CLR0, fmt RGBA4 0 CLR_RGBA)] ++ tex4 8);
    vatRow ([(GX.POS, fmt S16 8 POS_XYZ); (GX.NRM, nrm);
             (GX.CLR0, fmt RGBA4 0 CLR_RGBA)] ++ tex4 10);
    vatRow ([(GX.POS, fmt S16 0 POS_XYZ); (GX.NRM, nrm);
             (GX.CLR0, fmt RGBA4 0 CLR_RGBA)] ++ tex4 10) ].

Definition loc := positive.

Inductive Obj :=
  | OFmt (f : GX_VtxAttrFmt)            (* a [{compType, compShift, compCnt}] object *)
  | OArr (cells : list loc)             (* an array of references *)
  | OFields (f : ModelFields).          (* an entry of [FIELDS], or a copy of one *)

Abbreviation Heap := (gmap loc Obj).

Definition alloc (h : Heap) (o : Obj) : loc * Heap :=
  let l := fresh (dom h) in (l, <[l := o]> h).

(** Allocate one object per element, left to right. *)
Fixpoint allocAll (h : Heap) (os : list Obj) : list loc * Heap :=
  match os with
  | [] => ([], h)
  | o :: rest =>
      let '(l, h1) := alloc h o in
      let '(ls, h2) := allocAll h1 rest in
      (l :: ls, h2)
  end.

(** Store a table of formats: the format objects of a row, then the row. *)
Fixpoint allocRows (h : Heap) (rows : list (list GX_VtxAttrFmt)) : list loc * Heap :=
  match rows with
  | [] => ([], h)
  | r :: rest =>
      let '(cells, h1) := allocAll h (OFmt <$> r) in
      let '(rl, h2) := alloc h1 (OArr cells) in
      let '(rls, h3) := allocRows h2 rest in
      (rl :: rls, h3)
  end.

Definition allocVat (h : Heap) (rows : list (list GX_VtxAttrFmt)) : loc * Heap :=
  let '(rls, h1) := allocRows h rows in alloc h1 (OArr rls).

Definition readArr (h : Heap) (l : loc) : option (list loc) :=
  match h !! l with Some (OArr cells) => Some cells | _ => None end.

Definition readFmt (h : Heap) (l : loc) : option GX_VtxAttrFmt :=
  match h !! l with Some (OFmt f) => Some f | _ => None end.

Definition readFields (h : Heap) (l : loc) : option ModelFields :=
  match h !! l with Some (OFields f) => Some f | _ => None end.

(** [row.map(fmt => ({ compType: fmt.compType, ... }))] *)
Fixpoint cloneCells (h : Heap) (cells : list loc) : option (list loc * Heap) :=
  match cells with
  | [] => Some ([], h)
  | c :: rest =>
      f ← readFmt h c;
      let '(c', h1) := alloc h (OFmt (fmt (compType f) (compShift f) (compCnt f))) in
      '(cs, h2) ← cloneCells h1 rest;
      Some (c' :: cs, h2)
  end.

(** [baseVat.map(row => row.map(...))] *)
Fixpoint cloneRows (h : Heap) (rows : list loc) : option (list loc * Heap) :=
  match rows with
  | [] => Some ([], h)
  | r :: rest =>
      cells ← readArr h r;
      '(cells', h1) ← cloneCells h cells;
      let '(r', h2) := alloc h1 (OArr cells') in
      '(rs, h3) ← cloneRows h2 rest;
      Some (r' :: rs, h3)
  end.

Definition cloneVat (h : Heap) (baseVat : loc) : option (loc * Heap) :=
  rows ← readArr h baseVat;
  '(rows', h1) ← cloneRows h rows;
  Some (alloc h1 (OArr rows')).

(** [vat[r][a].member = v]: a write through two array reads. *)
Definition updateFmt (h : Heap) (vat : loc) (r a : nat)
    (upd : GX_VtxAttrFmt → GX_VtxAttrFmt) : option Heap :=
  rows ← readArr h vat;
  rl ← rows !! r;
  cells ← readArr h rl;
  fl ← cells !! a;
  f ← readFmt h fl;
  Some (<[fl := OFmt (upd f)]> h).

(** [for (const r of rs) vat[r][a] ...] *)
Fixpoint updateRows (h : Heap) (vat : loc) (rs : list nat) (a : nat)
    (upd : GX_VtxAttrFmt → GX_VtxAttrFmt) : option Heap :=
  match rs with
  | [] => Some h
  | r :: rest => h1 ← updateFmt h vat r a upd; updateRows h1 vat rest a upd
  end.

Definition setNumListBits (f : ModelFields) (n : Z) : ModelFields :=
  {| isBeta := isBeta f; isMapBlock := isMapBlock f; hasNormals := hasNormals f;
     hasBones := hasBones f; oldVat := oldVat f; shaderFields := shaderFields f;
     posCount := posCount f; nrmOffset := nrmOffset f; nrmCount := nrmCount f;
     dlOffsets := dlOffsets f; dlSizes := dlSizes f; dlInfoOffset := dlInfoOffset f;
     dlInfoCount := dlInfoCount f; dlInfoSize := dlInfoSize f; numListBits := n;
     bitsOffsets := bitsOffsets f; texMtxCountField := texMtxCountField f |}.

(** The references held by the module: the four presets and the table. *)
Record Roots := {
  VAT : loc; VAT_NBT : loc; OLD_VAT : loc; OLD_VAT_NBT : loc;
  FIELDS_ref : ModelVersion → option loc
}.

(** Module initialisation: the four [generateVat] calls and the [FIELDS]
    literal. *)
Definition allVersions : list ModelVersion :=
  [AncientMap; Beta; BetaMap; Demo; cloudtreasure; DemoMap; Final; FinalMap;
   fear; dfpt; dup; Early1; Early2; Early3; Early4].

Fixpoint allocFields (h : Heap) (vs : list ModelVersion)
  : list (ModelVersion * loc) * Heap :=
  match vs with
  | [] => ([], h)
  | v :: rest =>
      match FIELDS v with
      | Some f =>
          let '(l, h1) := alloc h (OFields f) in
          let '(tbl, h2) := allocFields h1 rest in
          ((v, l) :: tbl, h2)
      | None => allocFields h rest
      end
  end.

Definition initModule : Roots * Heap :=
  let '(v1, h1) := allocVat ∅ (generateVat false false) in
  let '(v2, h2) := allocVat h1 (generateVat false true) in
  let '(v3, h3) := allocVat h2 (generateVat true false) in
  let '(v4, h4) := allocVat h3 (generateVat true true) in
  let '(tbl, h5) := allocFields h4 allVersions in
  ({| VAT := v1; VAT_NBT := v2; OLD_VAT := v3; OLD_VAT_NBT := v4;
      FIELDS_ref := λ v, (λ e, e.2.2) <$> list_find (λ e, e.1 = v) tbl |}, h5).

Section LoadModel.
(** [NormalFlags.NBT] of [materials.ts]. *)
Variable NBT : Z.
Variable G : Roots.

(** The first statements of [loadModel] that touch the shared tables: the
    [numListBits] patch, the choice and the clone of the base table, and the
    two per-model overrides.  The result is the store, the reference bound to
    [fields] and the reference bound to [vat]. *)
Definition loadModelTables (h : Heap) (version : ModelVersion)
    (totalMapByteLength : Z) (header0x24 : Z) : option (Heap * loc * loc) :=
  fields0 ← FIELDS_ref G version;
  f0 ← readFields h fields0;
  let '(fieldsRef, h1) :=
    if bool_decide (version = Early1) && bool_decide (totalMapByteLength = 144448) then
      let '(l, h') := alloc h (OFields f0) in
      (l, <[l := OFields (setNumListBits f0 6)]> h')
    else (fields0, h) in
  f ← readFields h1 fieldsRef;
  let normalFlags := if hasNormals f then header0x24 else 0 in
  let nbt := flagSet normalFlags NBT in
  let baseVat :=
    if nbt then (if oldVat f then OLD_VAT_NBT G else VAT_NBT G)
    else (if oldVat f then OLD_VAT G else VAT G) in
  '(vat, h2) ← cloneVat h1 baseVat;
  h3 ← (if oldVat f && negb (isMapBlock f) && nbt
        then updateRows h2 vat [5; 6; 7]%nat GX.POS
               (λ x, fmt (compType x) 3 (compCnt x))
        else Some h2);
  h4 ← (if isMapBlock f && (bool_decide (version = Early3) || bool_decide (version = Early4))
        then updateRows h3 vat (seq 0 8) GX.CLR0 (λ x, fmt RGBA4 0 CLR_RGBA)
        else Some h3);
  Some (h4, fieldsRef, vat).

End LoadModel.
End Globals.

(** ** Predicates of the statements and concrete inputs *)
Module Samples.
Import DV.

(** The bit of [ShaderFlags.Lava] belongs to no other member of the
    enumeration that the heuristic branches combine, nor to the two raw
    lighting bits copied by the [isold] branch. *)
Definition lavaDisjoint (SF : ShaderFlagsEnum) : Prop :=
  Forall (λ m, Z.land m (Lava SF) = 0)
    [DevGeometry SF; Fog SF; CullBackface SF; ReflectSkyscape SF; Caustic SF;
     Reflective SF; AlphaCompare SF; ShortFur SF; MediumFur SF; Water SF;
     0x0800; 0x1000].

(** Bit assignments used to evaluate the decoder on concrete records. *)
Definition sampleFlags : ShaderFlagsEnum :=
  {| DevGeometry := 0x2; Fog := 0x4; CullBackface := 0x8; ReflectSkyscape := 0x20;
     Caustic := 0x40; Lava := 0x80; Reflective := 0x100; AlphaCompare := 0x400;
     ShortFur := 0x4000; MediumFur := 0x8000; LongFur := 0x10000;
     Water := 0x80000000 |}.

Definition sampleAttrFlags : ShaderAttrFlagsEnum :=
  {| ATTR_NRM := 0x1; ATTR_CLR := 0x2; ATTR_TEX0 := 0x4; ATTR_TEX1 := 0x8 |}.

(** A 0x44-byte record of the final family: no layers, and the flag word
    [0x80000080] at offset 0x3c. *)
Definition bothFlagsRecord : DV.DataView :=
  replicate 0x3c 0 ++ [0x80; 0; 0; 0x80] ++ replicate 4 0.

(** A 0x38-byte Swapcircle record: one layer at 0x20 whose texture index 0
    resolves to the lava texture 584. *)
Definition lavaRecord : DV.DataView :=
  replicate 0x36 0 ++ [1; 0].

(** [flags & Lava] is zero. *)
Definition lavaFree (SF : ShaderFlagsEnum) (w : Z) : Prop := Z.land w (Lava SF) = 0.

(** Water and Lava are not both set in a flag word. *)
Definition exclusive (SF : ShaderFlagsEnum) (w : Z) : Prop :=
  ¬ (flagSet w (Water SF) = true ∧ flagSet w (Lava SF) = true).



(** What the decoder can observe of a descriptor element: its type, [NONE]
    when the element is absent. *)
Definition seen (v : VCD.t) (a : nat) : GX.AttrType := default GX.NONE (VCD.typeAt v a).

(** A descriptor with an 8-bit position index and nothing else. *)
Definition posOnlyVcd : VCD.t :=
  <[GX.POS := Some GX.INDEX8]> (replicate (S GX.MAX) (Some GX.NONE)).

(** A Demo map block ([oldVat], no normals, no bones) with a colour table, and
    an object model without one. *)
Definition demoMapEnv (hasColorTable : bool) (stream : DV.DataView) : Interp.Env :=
  {| Interp.data := stream; Interp.version := Loader.DemoMap;
     Interp.fields := Loader.tableEntry true Material.SFADEMO_MAP_SHADER_FIELDS
                        false false true 0x90 (Some 0) (Some 0) 0x68 0x9f 0x34 8 [0x74] None;
     Interp.dlInfos := []; Interp.jointCount := 0; Interp.texMtxCount := 0;
     Interp.hasColorTable := hasColorTable; Interp.isEarly34Map := false;
     Interp.usingDummyClr := false; Interp.hasSkinning := false;
     Interp.bitsOffsetsRead := [0] |}.


(** The state an outcome carries. *)
Definition outState (o : Interp.Outcome) : Interp.State :=
  match o with Interp.Continue s | Interp.Done s | Interp.Raise s => s end.

(** The five opcodes of the command stream. *)
Definition knownOpcode (op : Z) : bool := bool_decide (op ∈ [1; 2; 3; 4; 5]).


(** The state a model starts its runs from: no shapes and a zeroed matrix
    map of ten entries. *)
Definition freshShared (sh : list Material.Shader) : Interp.Shared :=
  {| Interp.m_shaders := sh; Interp.m_shapes := []; Interp.m_waters := [];
     Interp.m_furs := []; Interp.m_pnMatrixMap := replicate 10 0;
     Interp.m_materials := ∅ |}.

(** A stream at offset 1: an opcode 0, then SetMatrices with one bone of
    index 7, then End. *)
Definition skipStream : DV.DataView := [0; 0x40; 0x71; 0x50].






Definition buildsNone : VCD.t → DV.DataView → bool := λ _ _, false.

(** Every object of the store [h] is still there, unchanged, in [h']. *)
Definition preserved (h h' : gmap Globals.loc Globals.Obj) : Prop :=
  ∀ l, l ∈ dom h → h' !! l = h !! l.

(** Every format object reachable from the table [vat] in [h] was allocated
    after the store [h0] was taken. *)
Definition freshTable (h0 h : gmap Globals.loc Globals.Obj) (vat : Globals.loc) : Prop :=
  ∃ rows, Globals.readArr h vat = Some rows
          ∧ ∀ rl, rl ∈ rows →
              ∃ cells, Globals.readArr h rl = Some cells ∧ ∀ c, c ∈ cells → c ∉ dom h0.

(** A small store: one format object, a row holding it, a table holding the
    row, and the Early1 entry of [FIELDS]; the four presets are that table. *)
Definition smallHeap : gmap Globals.loc Globals.Obj :=
  <[4%positive := Globals.OFields
      (Loader.tableEntry true Material.SFADEMO_MAP_SHADER_FIELDS false false true
         0x8e (Some 0) (Some 0) 0x68 0x9f 0x34 8 [0x74; 0x7c; 0x84] None)]>
  (<[3%positive := Globals.OArr [2%positive]]>
  (<[2%positive := Globals.OArr [1%positive]]>
  (<[1%positive := Globals.OFmt (Globals.fmt Globals.S16 0 Globals.POS_XYZ)]> ∅))).

Definition smallRoots : Globals.Roots :=
  {| Globals.VAT := 3%positive; Globals.VAT_NBT := 3%positive;
     Globals.OLD_VAT := 3%positive; Globals.OLD_VAT_NBT := 3%positive;
     Globals.FIELDS_ref := λ _, Some 4%positive |}.

(** The reader [r'] is [r] moved forward over bits of the same view; once it
    has moved, all the bits it has passed lie inside the view. *)
Definition fwd (r r' : Bits.LowBitReader) : Prop :=
  Bits.dv r' = Bits.dv r ∧ Bits.baseOffs r' = Bits.baseOffs r
  ∧ Bits.bitIndex r ≤ Bits.bitIndex r'
  ∧ (Bits.bitIndex r < Bits.bitIndex r' →
     0 ≤ 8 * Bits.baseOffs r + Bits.bitIndex r ∧ 0 ≤ Bits.remaining r').

End Samples.

(** * Properties *)

(** Invert one [x ← o; k] = [Some _] hypothesis after the other. *)
Ltac bind_inv H :=
  repeat (let x := fresh "x" in
          let Hx := fresh "Hx" in
          apply bind_Some in H as (x & Hx & H);
          try (destruct x as [? ?]); simpl in H).

Lemma flagSet_false w m : flagSet w m = false ↔ Z.land w m = 0.
Proof.
  unfold flagSet. rewrite negb_false_iff. apply Z.eqb_eq.
Qed.

Lemma flagSet_true w m : flagSet w m = true ↔ Z.land w m ≠ 0.
Proof.
  unfold flagSet. rewrite negb_true_iff. apply Z.eqb_neq.
Qed.

Lemma land_lor_0 a b m : Z.land a m = 0 → Z.land b m = 0 → Z.land (Z.lor a b) m = 0.
Proof.
  intros Ha Hb. rewrite Z.land_lor_distr_l, Ha, Hb. reflexivity.
Qed.

Lemma flagClear_disjoint w d m : Z.land w m = 0 → Z.land (flagClear w d) m = 0.
Proof.
  intros Hw. unfold flagClear.
  rewrite <- Z.land_assoc, (Z.land_comm (Z.lnot d) m), Z.land_assoc, Hw.
  apply Z.land_0_l.
Qed.

Lemma flagClear_cleared w m : Z.land (flagClear w m) m = 0.
Proof.
  unfold flagClear. rewrite <- Z.land_assoc, (Z.land_comm (Z.lnot m) m).
  rewrite Z.land_lnot_diag. apply Z.land_0_r.
Qed.

Module MaterialFacts.
Import DV Material Samples.

Section Exclusive.
Variable SF : ShaderFlagsEnum.
Variable AF : ShaderAttrFlagsEnum.
Hypothesis Hlava : lavaDisjoint SF.

Lemma lavaFree_member m :
  m ∈ [DevGeometry SF; Fog SF; CullBackface SF; ReflectSkyscape SF; Caustic SF;
       Reflective SF; AlphaCompare SF; ShortFur SF; MediumFur SF; Water SF;
       0x0800; 0x1000] → lavaFree SF m.
Proof.
  intros Hin. unfold lavaDisjoint in Hlava.
  rewrite Forall_forall in Hlava. apply Hlava, Hin.
Qed.

Lemma lavaFree_0 : lavaFree SF 0.
Proof. reflexivity. Qed.

Lemma lavaFree_orIf c m w : lavaFree SF m → lavaFree SF w → lavaFree SF (orIf c m w).
Proof.
  intros Hm Hw. unfold orIf. destruct c; [apply land_lor_0|]; assumption.
Qed.

Lemma lavaFree_lor m w : lavaFree SF m → lavaFree SF w → lavaFree SF (Z.lor w m).
Proof. intros Hm Hw. apply land_lor_0; assumption. Qed.

Lemma lavaFree_flagClear w d : lavaFree SF w → lavaFree SF (flagClear w d).
Proof. apply flagClear_disjoint. Qed.

Lemma lavaFree_exclusive w : lavaFree SF w → exclusive SF w.
Proof.
  intros Hw [_ Hl]. apply flagSet_true in Hl. apply Hl, Hw.
Qed.

Lemma markLava_exclusive c w : lavaFree SF w → exclusive SF (markLava SF c w).
Proof.
  intros Hw. destruct c; simpl.
  - intros [Hwater _]. apply flagSet_true in Hwater.
    apply Hwater, flagClear_cleared.
  - apply lavaFree_exclusive, Hw.
Qed.

Lemma readProbes_flags data ids s s' :
  readProbes data ids s = Some s' → flags s' = flags s.
Proof.
  unfold readProbes. intros H. bind_inv H. inversion H. reflexivity.
Qed.

Ltac lava_free :=
  repeat first
    [ apply lavaFree_0
    | apply lavaFree_orIf
    | apply lavaFree_lor
    | apply lavaFree_flagClear
    | apply lavaFree_member; set_solver ].

Lemma parseAncient_exclusive data s s' :
  parseAncient SF AF data s = Some s' → exclusive SF (flags s').
Proof.
  unfold parseAncient. intros H. bind_inv H. inversion H; subst; simpl.
  apply lavaFree_exclusive. lava_free.
Qed.

Lemma parseSwapcircle_exclusive data s s' :
  parseSwapcircle SF AF data s = Some s' → exclusive SF (flags s').
Proof.
  unfold parseSwapcircle. intros H. bind_inv H. inversion H; subst; simpl.
  apply markLava_exclusive.
  match goal with |- lavaFree _ (if ?c then _ else _) => destruct c end; lava_free.
Qed.

Lemma parseOld_exclusive data s s' :
  parseOld SF data s = Some s' → exclusive SF (flags s').
Proof.
  unfold parseOld. intros H. bind_inv H. inversion H; subst; simpl.
  match goal with |- exclusive _ (if ?c then _ else _) => destruct c end.
  - apply markLava_exclusive. lava_free.
  - apply lavaFree_exclusive. lava_free.
Qed.

Lemma translateEarly1Flags_lavaFree raw16 : lavaFree SF (translateEarly1Flags SF raw16).
Proof. unfold translateEarly1Flags. lava_free. Qed.

Lemma translateEarly3Flags_lavaFree raw16 : lavaFree SF (translateEarly3Flags SF raw16).
Proof. unfold translateEarly3Flags. lava_free. Qed.

Lemma parseEarly1_exclusive data s s' :
  parseEarly1 SF AF data s = Some s' → exclusive SF (flags s').
Proof.
  unfold parseEarly1. intros H. bind_inv H. inversion H; subst; simpl.
  apply lavaFree_exclusive. apply lavaFree_orIf; [lava_free|].
  apply lavaFree_flagClear, translateEarly1Flags_lavaFree.
Qed.

Lemma parseEarly3_exclusive data ids s s' :
  parseEarly3 SF AF data ids s = Some s' → exclusive SF (flags s').
Proof.
  unfold parseEarly3. intros H. bind_inv H. inversion H; subst; simpl.
  apply lavaFree_exclusive, translateEarly3Flags_lavaFree.
Qed.

Lemma parseFinal_flags data ids s s' :
  parseFinal data ids s = Some s' → getUint32 data 0x3c = Some (flags s').
Proof.
  unfold parseFinal. intros H. bind_inv H. inversion H; subst; simpl. assumption.
Qed.

(** C1 (amended).  In every branch of [parseShader] that derives the flags
    (ancient, Swapcircle and the beta families: [isold], Early1, Early3 and
    the plain beta default) the returned shader never has Water and Lava set
    together; in the final family the flag word is the 32-bit word stored at
    offset 0x3c of the record, unchanged. *)
Theorem parseShader_derived_flags_exclusive data fields ids nf lf tmc sh :
  parseShader SF AF data fields ids nf lf tmc = Some sh →
  (isAncient fields || isSwapcircle fields || isBeta fields = true →
   exclusive SF (flags sh))
  ∧ (isAncient fields || isSwapcircle fields || isBeta fields = false →
     getUint32 data 0x3c = Some (flags sh)).
Proof.
  unfold parseShader. intros H.
  apply bind_Some in H as (nl0 & _ & H). simpl in H.
  apply bind_Some in H as (ls & _ & H). simpl in H.
  destruct (isAncient fields); simpl.
  { split; [intros _ | discriminate]. eapply parseAncient_exclusive, H. }
  destruct (isSwapcircle fields); simpl.
  { split; [intros _ | discriminate]. eapply parseSwapcircle_exclusive, H. }
  destruct (isBeta fields); simpl.
  - split; [intros _ | discriminate].
    destruct (isold fields); [eapply parseOld_exclusive, H|].
    destruct (isEarly1 fields); [eapply parseEarly1_exclusive, H|].
    destruct (isEarly3 fields); [eapply parseEarly3_exclusive, H|].
    inversion H; subst; simpl.
    apply lavaFree_exclusive. lava_free.
  - split; [discriminate | intros _]. eapply parseFinal_flags, H.
Qed.

End Exclusive.
End MaterialFacts.

(** The Swapcircle record whose only layer names the lava texture 584 is
    parsed, and its shader satisfies the exclusion. *)
Lemma parseShader_derived_flags_exclusive_witness :
  Samples.lavaDisjoint Samples.sampleFlags
  ∧ ∃ sh, Material.parseShader Samples.sampleFlags Samples.sampleAttrFlags
            Samples.lavaRecord Material.BETA_MAP_SHADER_FIELDS [584] 0 0 0 = Some sh
          ∧ flagSet (Material.flags sh) (Lava Samples.sampleFlags) = true
          ∧ Samples.exclusive Samples.sampleFlags (Material.flags sh).
Proof.
  assert (Hd : Samples.lavaDisjoint Samples.sampleFlags).
  { unfold Samples.lavaDisjoint. repeat constructor. }
  split; [exact Hd|].
  eexists. split; [vm_compute; reflexivity|]. split; [reflexivity|].
  refine (proj1 (MaterialFacts.parseShader_derived_flags_exclusive
            Samples.sampleFlags Samples.sampleAttrFlags Hd
            Samples.lavaRecord Material.BETA_MAP_SHADER_FIELDS [584] 0 0 0 _ _) _);
    vm_compute; reflexivity.
Defined.

(** C1 (as stated) fails on the final family: the record carrying the word
    [0x80000080] is parsed into a shader with both Water and Lava set. *)
Lemma parseShader_final_water_and_lava :
  ∃ sh, Material.parseShader Samples.sampleFlags Samples.sampleAttrFlags
          Samples.bothFlagsRecord Material.SFA_SHADER_FIELDS [] 0 0 0 = Some sh
        ∧ flagSet (Material.flags sh) (Water Samples.sampleFlags) = true
        ∧ flagSet (Material.flags sh) (Lava Samples.sampleFlags) = true.
Proof.
  eexists. split; [vm_compute; reflexivity|]. split; reflexivity.
Qed.

Module LoaderFacts.
Import DV Loader Samples.








Lemma dataSubarrayLen_length d o len w :
  dataSubarrayLen d o len = Some w → byteLength w = len.
Proof.
  unfold dataSubarrayLen. case_decide as Hc; [|discriminate].
  intros [= <-]. unfold byteLength in *.
  rewrite length_take, length_drop. lia.
Qed.






End LoaderFacts.



Module PaddingFacts.
Import DV Loader.

Lemma copyRecord_length src ts off n dst :
  length (copyRecord src ts off n dst) = length dst.
Proof.
  unfold copyRecord. generalize (seq 0 n). intros js. revert dst.
  induction js as [|j js IH]; intros dst; simpl; [reflexivity|].
  rewrite IH. apply length_insert.
Qed.

(** A copied record overwrites the cells [off .. off + n - 1] that exist and
    nothing else. *)
Lemma copyRecord_lookup src ts off n dst (k : nat) :
  0 ≤ off →
  copyRecord src ts off n dst !! k =
    if decide (off ≤ Z.of_nat k < off + Z.of_nat n ∧ (k < length dst)%nat)
    then Some (default 0 (src !! Z.to_nat (ts + (Z.of_nat k - off))))
    else dst !! k.
Proof.
  intros Hoff. unfold copyRecord. induction n as [|n IH].
  { simpl. rewrite decide_False by lia. reflexivity. }
  rewrite seq_S, foldl_app. simpl.
  set (d := foldl _ dst (seq 0 n)) in *.
  assert (Hlen : length d = length dst) by apply (copyRecord_length src ts off n dst).
  destruct (decide (Z.to_nat (off + Z.of_nat n) = k)) as [Heq | Hne].
  - subst k. destruct (decide (Z.to_nat (off + Z.of_nat n) < length d)%nat) as [Hin | Hout].
    + rewrite list_lookup_insert_eq by assumption.
      rewrite decide_True by lia.
      do 3 f_equal. lia.
    + rewrite list_insert_ge by lia. rewrite IH.
      rewrite decide_False by lia. rewrite decide_False by lia. reflexivity.
  - rewrite list_lookup_insert_ne by assumption. rewrite IH.
    repeat case_decide; try reflexivity; lia.
Qed.

Lemma padLoop_length fuel src ts needed n off dst :
  length (padLoop fuel src ts needed n off dst) = length dst.
Proof.
  revert off dst. induction fuel as [|fuel IH]; intros off dst; simpl; [reflexivity|].
  case_decide; [|reflexivity]. rewrite IH. apply copyRecord_length.
Qed.

(** With enough fuel the loop leaves the cells below [off] alone and fills
    every cell from [off] on with the byte of the tail record at the same
    position modulo the stride. *)
Lemma padLoop_lookup src ts needed (n : nat) (len : Z) :
  (0 < n)%nat → 0 ≤ len →
  ∀ fuel (m : Z) dst (k : nat),
    0 ≤ m →
    needed - (len + m * Z.of_nat n) ≤ Z.of_nat fuel →
    Z.of_nat (length dst) = needed →
    padLoop fuel src ts needed n (len + m * Z.of_nat n) dst !! k =
      if decide (len + m * Z.of_nat n ≤ Z.of_nat k < needed)
      then Some (default 0 (src !! Z.to_nat (ts + (Z.of_nat k - len) mod Z.of_nat n)))
      else dst !! k.
Proof.
  intros Hn Hlen. induction fuel as [|fuel IH]; intros m dst k Hm Hfuel Hdst; simpl.
  { rewrite decide_False by lia. reflexivity. }
  case_decide as Hoff.
  - replace (len + m * Z.of_nat n + Z.of_nat n) with (len + (m + 1) * Z.of_nat n) by lia.
    rewrite IH; [| lia | nia | rewrite copyRecord_length; assumption].
    rewrite copyRecord_lookup by nia.
    destruct (decide (len + (m + 1) * Z.of_nat n ≤ Z.of_nat k < needed)) as [Hhi | Hlo].
    + rewrite decide_True by nia. reflexivity.
    + case_decide as Hmid.
      * rewrite decide_True by nia.
        do 3 f_equal.
        replace (Z.of_nat k - len) with ((Z.of_nat k - (len + m * Z.of_nat n)) + m * Z.of_nat n) by lia.
        rewrite Z.mod_add by lia. rewrite Z.mod_small by lia. lia.
      * rewrite decide_False; [reflexivity|]. lia.
  - rewrite decide_False by lia. reflexivity.
Qed.

(** C7 (amended).  When the model has normals and its normal buffer is not
    empty and shorter than [posCount × stride] (stride 9 for NBT normals, 3
    otherwise), the padded buffer has exactly [posCount × stride] bytes, starts
    with the original buffer and, the original holding at least one record,
    continues with copies of its final record; a buffer already that long, an
    empty buffer and a model without normals are left as they are. *)
Theorem padNormals_repeats_last_record (hasNormals nbt : bool) (posCount : Z)
    (src : list Z) :
  let stride := if nbt then 9 else 3 in
  (hasNormals = true → 0 < byteLength src < posCount * stride →
     byteLength (padNormals hasNormals nbt posCount src) = posCount * stride
     ∧ take (length src) (padNormals hasNormals nbt posCount src) = src
     ∧ (stride ≤ byteLength src →
        ∀ k : nat, byteLength src ≤ Z.of_nat k < posCount * stride →
          padNormals hasNormals nbt posCount src !! k =
          src !! Z.to_nat (byteLength src - stride
                           + (Z.of_nat k - byteLength src) mod stride)))
  ∧ (hasNormals = false ∨ byteLength src = 0 ∨ posCount * stride ≤ byteLength src →
     padNormals hasNormals nbt posCount src = src).
Proof.
  intros stride. split.
  - intros -> Hlen. unfold padNormals. simpl.
    rewrite bool_decide_eq_true_2 by lia.
    set (n := if nbt then 9%nat else 3%nat).
    assert (Hstride : Z.of_nat n = stride) by (unfold n, stride; destruct nbt; reflexivity).
    rewrite Hstride. rewrite decide_True by lia.
    set (needed := posCount * stride) in *.
    set (ts := Z.max 0 (byteLength src - stride)).
    assert (Hzl : Z.of_nat (length (zeroFilledWith needed src)) = needed).
    { unfold zeroFilledWith, byteLength in *. rewrite length_app, length_replicate. lia. }
    assert (Hn : (0 < n)%nat) by (unfold n; destruct nbt; lia).
    assert (Hget : ∀ k : nat,
      padLoop (Z.to_nat needed) src ts needed n (byteLength src)
              (zeroFilledWith needed src) !! k =
      if decide (byteLength src ≤ Z.of_nat k < needed)
      then Some (default 0 (src !! Z.to_nat (ts + (Z.of_nat k - byteLength src) mod stride)))
      else zeroFilledWith needed src !! k).
    { intros k.
      pose proof (padLoop_lookup src ts needed n (byteLength src) Hn ltac:(lia)
                    (Z.to_nat needed) 0 (zeroFilledWith needed src) k
                    ltac:(lia) ltac:(lia) Hzl) as H.
      rewrite Hstride in H. replace (byteLength src + 0 * stride) with (byteLength src) in H by lia.
      exact H. }
    split; [|split].
    + unfold byteLength at 1. rewrite padLoop_length. exact Hzl.
    + apply list_eq. intros k.
      destruct (decide (k < length src)%nat) as [Hk | Hk].
      * rewrite lookup_take_lt by assumption. rewrite Hget.
        unfold byteLength in *. rewrite decide_False by lia.
        unfold zeroFilledWith. apply lookup_app_l. assumption.
      * rewrite lookup_take_ge by lia. symmetry. apply lookup_ge_None. lia.
    + intros Hrec k Hk. rewrite Hget. rewrite decide_True by lia.
      assert (Hts : ts = byteLength src - stride) by (unfold ts; lia).
      rewrite Hts.
      pose proof (Z.mod_pos_bound (Z.of_nat k - byteLength src) stride ltac:(lia)) as Hmod.
      destruct (lookup_lt_is_Some_2 src
                  (Z.to_nat (byteLength src - stride + (Z.of_nat k - byteLength src) mod stride)))
        as [b Hb].
      { unfold byteLength in *. lia. }
      rewrite Hb. reflexivity.
  - intros Hcase. unfold padNormals.
    destruct hasNormals; simpl; [|reflexivity].
    case_bool_decide as Hpos; [|reflexivity].
    case_decide as Hshort; [|reflexivity].
    destruct Hcase as [? | [? | Hlong]]; [discriminate | lia |].
    exfalso. unfold stride in Hlong. destruct nbt; simpl in *; lia.
Qed.

End PaddingFacts.

(** Two normals for four positions: the six bytes are followed by two copies
    of the second record. *)
Lemma padNormals_repeats_last_record_witness :
  Loader.padNormals true false 4 [1; 2; 3; 4; 5; 6] = [1; 2; 3; 4; 5; 6; 4; 5; 6; 4; 5; 6]
  ∧ DV.byteLength (Loader.padNormals true false 4 [1; 2; 3; 4; 5; 6]) = 4 * 3.
Proof.
  split; [reflexivity|].
  refine (proj1 (proj1 (PaddingFacts.padNormals_repeats_last_record
                          true false 4 [1; 2; 3; 4; 5; 6]) eq_refl _)).
  vm_compute. split; reflexivity.
Defined.

(** C7 (as stated) fails on an empty normal buffer: with four positions the
    buffer is shorter than the twelve bytes needed and is not grown. *)
Lemma padNormals_empty_not_grown :
  DV.byteLength [] < 4 * 3 ∧ Loader.padNormals true false 4 [] = [].
Proof. split; reflexivity. Qed.

Module VCDFacts.
Import GX VCD Samples.

Lemma typeAt_assign_eq v a ty : typeAt (assign v a ty) a = Some ty.
Proof.
  unfold typeAt, assign. case_decide as Hlt.
  - rewrite list_lookup_insert_eq by assumption. reflexivity.
  - rewrite lookup_app_r by lia. rewrite lookup_app_r by (rewrite length_replicate; lia).
    rewrite length_replicate. replace (a - length v - (a - length v))%nat with 0%nat by lia.
    reflexivity.
Qed.

Lemma typeAt_assign_ne v a b ty : a ≠ b → typeAt (assign v a ty) b = typeAt v b.
Proof.
  intros Hne. unfold typeAt, assign. case_decide as Hlt.
  - rewrite list_lookup_insert_ne by assumption. reflexivity.
  - destruct (decide (b < length v)%nat) as [Hb | Hb].
    + rewrite lookup_app_l by assumption. reflexivity.
    + rewrite (lookup_ge_None_2 v b) by lia. simpl.
      rewrite lookup_app_r by lia.
      destruct (decide (b - length v < a - length v)%nat) as [Hin | Hout].
      * rewrite lookup_app_l by (rewrite length_replicate; lia).
        rewrite lookup_replicate_2 by lia. reflexivity.
      * rewrite lookup_app_r by (rewrite length_replicate; lia).
        rewrite length_replicate.
        rewrite lookup_ge_None_2; [reflexivity|]. simpl. lia.
Qed.

Lemma isType_assign_eq v a ty ty' :
  isType (assign v a ty) a ty' = bool_decide (ty = ty').
Proof.
  unfold isType. rewrite typeAt_assign_eq.
  apply bool_decide_ext. split; [intros [= ->] | intros ->]; reflexivity.
Qed.

Lemma isType_assign_ne v a b ty ty' :
  a ≠ b → isType (assign v a ty) b ty' = isType v b ty'.
Proof. intros Hne. unfold isType. rewrite typeAt_assign_ne by assumption. reflexivity. Qed.

Lemma isType_seen v a ty : ty ≠ NONE → isType v a ty = bool_decide (seen v a = ty).
Proof.
  intros Hty. unfold isType, seen. apply bool_decide_ext.
  destruct (typeAt v a) as [x|]; simpl; split; try congruence.
Qed.

Lemma seen_vcdClone v a : seen (vcdClone v) a = seen v a.
Proof.
  unfold seen, typeAt, vcdClone. rewrite list_lookup_fmap.
  destruct (v !! a) as [[x|]|]; reflexivity.
Qed.

(** Two descriptors that look alike at the indexed attributes have the same
    index width. *)
Lemma vcdIndexBytes_ext v w :
  (∀ a, (9 ≤ a)%nat → seen v a = seen w a) → vcdIndexBytes v = vcdIndexBytes w.
Proof.
  intros H. unfold vcdIndexBytes, idxWidth.
  rewrite !isType_seen by discriminate.
  rewrite !(H POS), !(H NRM), !(H CLR0), !(H TEX0), !(H TEX1), !(H TEX2), !(H TEX3)
    by (unfold POS, NRM, CLR0, TEX0, TEX1, TEX2, TEX3; lia).
  reflexivity.
Qed.

Lemma countTexMtx_shift v d slots : countTexMtx v d slots = d + countTexMtx v 0 slots.
Proof.
  unfold countTexMtx. revert d.
  induction slots as [|i slots IH]; intros d; cbn [foldl]; [lia|].
  rewrite IH. rewrite (IH (if isType v (TEX0MTXIDX + i) DIRECT then 0 + 1 else 0)).
  destruct (isType v (TEX0MTXIDX + i) DIRECT); lia.
Qed.

Lemma countTexMtx_cons v i slots :
  countTexMtx v 0 (i :: slots) =
  (if isType v (TEX0MTXIDX + i) DIRECT then 1 else 0) + countTexMtx v 0 slots.
Proof.
  change (countTexMtx v 0 (i :: slots))
    with (countTexMtx v (if isType v (TEX0MTXIDX + i) DIRECT then 0 + 1 else 0) slots).
  rewrite countTexMtx_shift. destruct (isType v (TEX0MTXIDX + i) DIRECT); lia.
Qed.

Lemma countTexMtx_nil v d : countTexMtx v d [] = d.
Proof. reflexivity. Qed.

Lemma countTexMtx_app v l1 l2 :
  countTexMtx v 0 (l1 ++ l2) = countTexMtx v 0 l1 + countTexMtx v 0 l2.
Proof.
  induction l1 as [|i l1 IH].
  - rewrite countTexMtx_nil. reflexivity.
  - change ((i :: l1) ++ l2) with (i :: (l1 ++ l2)).
    rewrite !countTexMtx_cons, IH. lia.
Qed.

Lemma countTexMtx_rev v l : countTexMtx v 0 (rev l) = countTexMtx v 0 l.
Proof.
  induction l as [|i l IH]; [reflexivity|].
  change (rev (i :: l)) with (rev l ++ [i]).
  rewrite countTexMtx_app, !countTexMtx_cons, IH, countTexMtx_nil. lia.
Qed.

Lemma countTexMtx_ext v w slots :
  (∀ i, i ∈ slots → isType v (TEX0MTXIDX + i) DIRECT = isType w (TEX0MTXIDX + i) DIRECT) →
  countTexMtx v 0 slots = countTexMtx w 0 slots.
Proof.
  induction slots as [|i slots IH]; intros H; [reflexivity|].
  rewrite !countTexMtx_cons, H by apply list_elem_of_here. rewrite IH; [reflexivity|].
  intros j Hj. apply H, list_elem_of_further, Hj.
Qed.

Lemma countTexMtx_bounds v slots :
  0 ≤ countTexMtx v 0 slots ≤ Z.of_nat (length slots).
Proof.
  induction slots as [|i slots IH]; [rewrite countTexMtx_nil; simpl; lia|].
  rewrite countTexMtx_cons. simpl length.
  destruct (isType v (TEX0MTXIDX + i) DIRECT); lia.
Qed.

Lemma vcdDirectBytes_split v :
  vcdDirectBytes v =
  (if isType v PNMTXIDX DIRECT then 1 else 0) + countTexMtx v 0 (seq 0 8).
Proof. unfold vcdDirectBytes. apply countTexMtx_shift. Qed.

(** The widening loop touches the visited texture-matrix slots only and
    enables as many of them as are needed and free. *)
Lemma widenTexMtx_spec slots :
  NoDup slots →
  ∀ need v, 0 ≤ need →
    (∀ b, (∀ i, i ∈ slots → b ≠ (TEX0MTXIDX + i)%nat) →
          typeAt (widenTexMtx slots need v) b = typeAt v b)
    ∧ countTexMtx (widenTexMtx slots need v) 0 slots =
      countTexMtx v 0 slots
      + Z.min need (Z.of_nat (length slots) - countTexMtx v 0 slots).
Proof.
  induction 1 as [|i slots Hnotin Hnd IH]; intros need v Hneed.
  { split; [reflexivity|]. rewrite !countTexMtx_nil. simpl length. lia. }
  cbn [widenTexMtx].
  pose proof (countTexMtx_bounds v slots) as Hb.
  case_decide as Hpos.
  2: { split; [reflexivity|]. pose proof (countTexMtx_bounds v (i :: slots)). simpl length in *. lia. }
  assert (Hd : negb (bool_decide (default NONE (typeAt v (TEX0MTXIDX + i)) = DIRECT))
               = negb (isType v (TEX0MTXIDX + i) DIRECT)).
  { f_equal. rewrite isType_seen by discriminate. reflexivity. }
  rewrite Hd. clear Hd.
  destruct (isType v (TEX0MTXIDX + i) DIRECT) eqn:Hi; simpl negb; cbv iota.
  - destruct (IH need v Hneed) as [Hframe Hcount]. split.
    + intros b Hbne. apply Hframe. intros j Hj. apply Hbne, list_elem_of_further, Hj.
    + rewrite !countTexMtx_cons, Hcount, Hi.
      unfold isType at 1. rewrite Hframe.
      2: { intros j Hj Heq. assert (i = j) by lia. subst. contradiction. }
      fold (isType v (TEX0MTXIDX + i) DIRECT). rewrite Hi.
      simpl length. lia.
  - destruct (IH (need - 1) (assign v (TEX0MTXIDX + i) DIRECT) ltac:(lia))
      as [Hframe Hcount].
    assert (Hsame : countTexMtx (assign v (TEX0MTXIDX + i) DIRECT) 0 slots
                    = countTexMtx v 0 slots).
    { apply countTexMtx_ext. intros j Hj. apply isType_assign_ne.
      intros Heq. assert (i = j) by lia. subst. contradiction. }
    split.
    + intros b Hbne. rewrite Hframe.
      * apply typeAt_assign_ne. intros Heq. apply (Hbne i); [apply list_elem_of_here | auto].
      * intros j Hj. apply Hbne, list_elem_of_further, Hj.
    + rewrite !countTexMtx_cons, Hcount, Hsame, Hi.
      unfold isType at 1. rewrite Hframe.
      2: { intros j Hj Heq. assert (i = j) by lia. subst. contradiction. }
      rewrite typeAt_assign_eq. rewrite bool_decide_eq_true_2 by reflexivity.
      simpl length. lia.
Qed.

(** The narrowing loop touches the visited texture-matrix slots only and
    drops as many of them as the excess asks for. *)
Lemma narrowTexMtx_spec slots :
  NoDup slots →
  ∀ over v, 0 ≤ over →
    (∀ b, (∀ i, i ∈ slots → b ≠ (TEX0MTXIDX + i)%nat) →
          typeAt (narrowTexMtx slots over v).2 b = typeAt v b)
    ∧ countTexMtx (narrowTexMtx slots over v).2 0 slots =
      countTexMtx v 0 slots - Z.min over (countTexMtx v 0 slots)
    ∧ (narrowTexMtx slots over v).1 = over - Z.min over (countTexMtx v 0 slots).
Proof.
  induction 1 as [|i slots Hnotin Hnd IH]; intros over v Hover.
  { split; [reflexivity|]. rewrite !countTexMtx_nil. cbn [narrowTexMtx fst]. split; lia. }
  cbn [narrowTexMtx].
  pose proof (countTexMtx_bounds v slots) as Hb.
  case_decide as Hpos.
  2: { cbn [fst snd]. split; [reflexivity|].
       pose proof (countTexMtx_bounds v (i :: slots)). split; lia. }
  destruct (isType v (TEX0MTXIDX + i) DIRECT) eqn:Hi.
  - destruct (IH (over - 1) (assign v (TEX0MTXIDX + i) NONE) ltac:(lia))
      as (Hframe & Hcount & Hrest).
    assert (Hsame : countTexMtx (assign v (TEX0MTXIDX + i) NONE) 0 slots
                    = countTexMtx v 0 slots).
    { apply countTexMtx_ext. intros j Hj. apply isType_assign_ne.
      intros Heq. assert (i = j) by lia. subst. contradiction. }
    split; [|split].
    + intros b Hbne. rewrite Hframe.
      * apply typeAt_assign_ne. intros Heq. apply (Hbne i); [apply list_elem_of_here | auto].
      * intros j Hj. apply Hbne, list_elem_of_further, Hj.
    + rewrite !countTexMtx_cons, Hcount, Hsame, Hi.
      unfold isType at 1. rewrite Hframe.
      2: { intros j Hj Heq. assert (i = j) by lia. subst. contradiction. }
      rewrite typeAt_assign_eq. rewrite bool_decide_eq_false_2 by discriminate.
      lia.
    + rewrite Hrest, Hsame, countTexMtx_cons, Hi. lia.
  - destruct (IH over v Hover) as (Hframe & Hcount & Hrest).
    split; [|split].
    + intros b Hbne. apply Hframe. intros j Hj. apply Hbne, list_elem_of_further, Hj.
    + rewrite !countTexMtx_cons, Hcount, Hi.
      unfold isType at 1. rewrite Hframe.
      2: { intros j Hj Heq. assert (i = j) by lia. subst. contradiction. }
      fold (isType v (TEX0MTXIDX + i) DIRECT). rewrite Hi. lia.
    + rewrite Hrest, countTexMtx_cons, Hi. lia.
Qed.

Lemma seen_of_typeAt v w a : typeAt v a = typeAt w a → seen v a = seen w a.
Proof. unfold seen. intros ->. reflexivity. Qed.

Lemma isType_of_typeAt v w a ty : typeAt v a = typeAt w a → isType v a ty = isType w a ty.
Proof. unfold isType. intros ->. reflexivity. Qed.

Lemma isType_vcdClone v a ty : ty ≠ NONE → isType (vcdClone v) a ty = isType v a ty.
Proof.
  intros Hty. rewrite !isType_seen by assumption. rewrite seen_vcdClone. reflexivity.
Qed.

Lemma vcdIndexBytes_vcdClone v : vcdIndexBytes (vcdClone v) = vcdIndexBytes v.
Proof. apply vcdIndexBytes_ext. intros a _. apply seen_vcdClone. Qed.

Lemma vcdDirectBytes_vcdClone v : vcdDirectBytes (vcdClone v) = vcdDirectBytes v.
Proof.
  rewrite !vcdDirectBytes_split. rewrite isType_vcdClone by discriminate.
  f_equal. apply countTexMtx_ext. intros i _. apply isType_vcdClone. discriminate.
Qed.

Lemma texMtx_ne_PNMTXIDX i : PNMTXIDX ≠ (TEX0MTXIDX + i)%nat.
Proof. unfold PNMTXIDX, TEX0MTXIDX. lia. Qed.

Lemma texMtx_ne_indexed a i : (9 ≤ a)%nat → i ∈ seq 0 8 → a ≠ (TEX0MTXIDX + i)%nat.
Proof. intros Ha Hi%elem_of_seq. unfold TEX0MTXIDX. lia. Qed.

Lemma texMtx_ne_indexed_rev a i : (9 ≤ a)%nat → i ∈ rev (seq 0 8) → a ≠ (TEX0MTXIDX + i)%nat.
Proof.
  intros Ha Hi. apply texMtx_ne_indexed; [assumption|].
  apply list_elem_of_In, in_rev, list_elem_of_In, Hi.
Qed.

Lemma NoDup_rev_seq : NoDup (rev (seq 0 8)).
Proof. apply NoDup_ListNoDup, NoDup_rev, NoDup_ListNoDup, NoDup_seq. Qed.

(** C6 (amended).  [forceVCDStrideTo] changes matrix-index slots only: every
    indexed attribute keeps its type.  When the target lies between the index
    width and the index width plus nine, the width of the result is the
    target.  When it widens, the position-matrix slot is enabled first, before
    any texture-matrix slot; when it narrows, texture-matrix slots are dropped
    first and the position-matrix slot only once none of them is left. *)
Theorem forceVCDStrideTo_matrix_slots v target :
  let r := forceVCDStrideTo v target in
  let cur := vcdIndexBytes v + vcdDirectBytes v in
  (∀ a, (9 ≤ a)%nat → seen r a = seen v a)
  ∧ (vcdIndexBytes v ≤ target ≤ vcdIndexBytes v + 9 →
     vcdIndexBytes r + vcdDirectBytes r = target)
  ∧ (cur < target → isType r PNMTXIDX DIRECT = true)
  ∧ (target < cur → isType v PNMTXIDX DIRECT = true →
     isType r PNMTXIDX DIRECT = false → countTexMtx r 0 (seq 0 8) = 0).
Proof.
  intros r cur. subst r cur. unfold forceVCDStrideTo.
  rewrite vcdIndexBytes_vcdClone, vcdDirectBytes_vcdClone.
  set (v0 := vcdClone v).
  assert (Hidx0 : vcdIndexBytes v0 = vcdIndexBytes v) by apply vcdIndexBytes_vcdClone.
  assert (Hdir0 : vcdDirectBytes v0 = vcdDirectBytes v) by apply vcdDirectBytes_vcdClone.
  assert (Hpn0 : isType v0 PNMTXIDX DIRECT = isType v PNMTXIDX DIRECT)
    by (apply isType_vcdClone; discriminate).
  pose proof (countTexMtx_bounds v0 (seq 0 8)) as Hb0. simpl length in Hb0.
  rewrite vcdDirectBytes_split, Hpn0 in Hdir0.
  case_decide as Heq.
  { split; [intros a _; apply seen_vcdClone|].
    split; [intros _; rewrite Hidx0, vcdDirectBytes_split, Hpn0, Hdir0; exact Heq|].
    split; intros; lia. }
  case_decide as Hlt.
  - (* widening *)
    rewrite bool_decide_eq_true_2 by lia. rewrite Hpn0. cbn [andb].
    destruct (isType v PNMTXIDX DIRECT) eqn:Hpn; cbn [negb].
    + destruct (widenTexMtx_spec (seq 0 8) (NoDup_seq 0 8)
                  (target - (vcdIndexBytes v + vcdDirectBytes v)) v0 ltac:(lia))
        as [Hframe Hcount].
      set (r := widenTexMtx _ _ _) in *.
      assert (Hpn' : isType r PNMTXIDX DIRECT = true).
      { rewrite (isType_of_typeAt r v0), Hpn0; [reflexivity|].
        apply Hframe. intros i _. apply texMtx_ne_PNMTXIDX. }
      assert (Hidx' : vcdIndexBytes r = vcdIndexBytes v).
      { rewrite <- Hidx0. apply vcdIndexBytes_ext. intros a Ha.
        apply seen_of_typeAt, Hframe. intros i Hi. apply texMtx_ne_indexed; assumption. }
      split; [|split; [|split]].
      * intros a Ha. rewrite <- (seen_vcdClone v a).
        apply seen_of_typeAt, Hframe. intros i Hi. apply texMtx_ne_indexed; assumption.
      * intros Hreach. rewrite Hidx', vcdDirectBytes_split, Hpn', Hcount. simpl length. lia.
      * intros _. exact Hpn'.
      * intros; lia.
    + destruct (widenTexMtx_spec (seq 0 8) (NoDup_seq 0 8)
                  (target - (vcdIndexBytes v + vcdDirectBytes v) - 1)
                  (assign v0 PNMTXIDX DIRECT) ltac:(lia))
        as [Hframe Hcount].
      set (r := widenTexMtx _ _ _) in *.
      assert (Hsame : countTexMtx (assign v0 PNMTXIDX DIRECT) 0 (seq 0 8)
                      = countTexMtx v0 0 (seq 0 8)).
      { apply countTexMtx_ext. intros i _. apply isType_assign_ne, texMtx_ne_PNMTXIDX. }
      assert (Hpn' : isType r PNMTXIDX DIRECT = true).
      { rewrite (isType_of_typeAt r (assign v0 PNMTXIDX DIRECT)).
        - rewrite isType_assign_eq. apply bool_decide_eq_true_2. reflexivity.
        - apply Hframe. intros i _. apply texMtx_ne_PNMTXIDX. }
      assert (Hseen : ∀ a, (9 ≤ a)%nat → seen r a = seen v a).
      { intros a Ha. rewrite <- (seen_vcdClone v a). fold v0.
        transitivity (seen (assign v0 PNMTXIDX DIRECT) a).
        - apply seen_of_typeAt, Hframe. intros i Hi. apply texMtx_ne_indexed; assumption.
        - apply seen_of_typeAt, typeAt_assign_ne. unfold PNMTXIDX. lia. }
      split; [exact Hseen|]. split; [|split].
      * intros Hreach. rewrite (vcdIndexBytes_ext r v Hseen).
        rewrite vcdDirectBytes_split, Hpn', Hcount, Hsame. simpl length. lia.
      * intros _. exact Hpn'.
      * intros; lia.
  - (* narrowing *)
    destruct (narrowTexMtx_spec (rev (seq 0 8)) NoDup_rev_seq
                (vcdIndexBytes v + vcdDirectBytes v - target) v0 ltac:(lia))
      as (Hframe & Hcount & Hrest).
    destruct (narrowTexMtx (rev (seq 0 8)) _ v0) as [over' v'] eqn:Hn.
    cbn [fst snd] in *. rewrite !countTexMtx_rev in *.
    assert (Hpn1 : isType v' PNMTXIDX DIRECT = isType v PNMTXIDX DIRECT).
    { rewrite <- Hpn0. apply isType_of_typeAt, Hframe.
      intros i _. apply texMtx_ne_PNMTXIDX. }
    assert (Hseen1 : ∀ a, (9 ≤ a)%nat → seen v' a = seen v a).
    { intros a Ha. rewrite <- (seen_vcdClone v a).
      apply seen_of_typeAt, Hframe. intros i Hi. apply texMtx_ne_indexed_rev; assumption. }
    rewrite Hpn1.
    destruct (bool_decide (over' > 0) && isType v PNMTXIDX DIRECT) eqn:Hdrop.
    + apply andb_true_iff in Hdrop as [Hover%bool_decide_eq_true Hpn].
      assert (Hsame : countTexMtx (assign v' PNMTXIDX NONE) 0 (seq 0 8)
                      = countTexMtx v' 0 (seq 0 8)).
      { apply countTexMtx_ext. intros i _. apply isType_assign_ne, texMtx_ne_PNMTXIDX. }
      assert (Hseen : ∀ a, (9 ≤ a)%nat → seen (assign v' PNMTXIDX NONE) a = seen v a).
      { intros a Ha. rewrite <- Hseen1 by assumption.
        apply seen_of_typeAt, typeAt_assign_ne. unfold PNMTXIDX. lia. }
      split; [exact Hseen|]. split; [|split].
      * intros Hreach. rewrite (vcdIndexBytes_ext _ v Hseen).
        rewrite vcdDirectBytes_split, isType_assign_eq, Hsame, Hcount.
        rewrite bool_decide_eq_false_2 by discriminate.
        rewrite Hpn in Hdir0. lia.
      * intros; lia.
      * intros _ _ _. rewrite Hsame, Hcount. lia.
    + split; [exact Hseen1|]. split; [|split].
      * intros Hreach. rewrite (vcdIndexBytes_ext _ v Hseen1).
        rewrite vcdDirectBytes_split, Hpn1, Hcount.
        apply andb_false_iff in Hdrop as [Hover%bool_decide_eq_false | Hpn].
        -- destruct (isType v PNMTXIDX DIRECT); lia.
        -- rewrite Hpn in *. lia.
      * intros; lia.
      * intros _ Hpn Hoff. rewrite Hpn1, Hpn in Hoff. discriminate.
Qed.

End VCDFacts.

(** Narrowing a descriptor that has the position-matrix slot and the last
    texture-matrix slot from width 3 to width 2 drops the texture slot and
    keeps the position-matrix slot. *)
Lemma forceVCDStrideTo_matrix_slots_witness :
  let v := <[GX.PNMTXIDX := Some GX.DIRECT]>
             (<[8%nat := Some GX.DIRECT]> Samples.posOnlyVcd) in
  VCD.vcdIndexBytes v + VCD.vcdDirectBytes v = 3
  ∧ VCD.vcdIndexBytes (VCD.forceVCDStrideTo v 2)
    + VCD.vcdDirectBytes (VCD.forceVCDStrideTo v 2) = 2
  ∧ VCD.isType (VCD.forceVCDStrideTo v 2) GX.PNMTXIDX GX.DIRECT = true.
Proof.
  intros v. split; [reflexivity|]. split; [|reflexivity].
  refine (proj1 (proj2 (VCDFacts.forceVCDStrideTo_matrix_slots v 2)) _).
  vm_compute. split; discriminate.
Defined.

(** C6 (as stated) fails when widening: from width 1 to width 2 the
    position-matrix slot is the one enabled, although all eight
    texture-matrix slots are free. *)
Lemma forceVCDStrideTo_widens_position_first :
  VCD.vcdIndexBytes Samples.posOnlyVcd + VCD.vcdDirectBytes Samples.posOnlyVcd = 1
  ∧ VCD.isType (VCD.forceVCDStrideTo Samples.posOnlyVcd 2) GX.PNMTXIDX GX.DIRECT = true
  ∧ VCD.countTexMtx (VCD.forceVCDStrideTo Samples.posOnlyVcd 2) 0 (seq 0 8) = 0
  ∧ VCD.countTexMtx Samples.posOnlyVcd 0 (seq 0 8) = 0.
Proof. repeat split. Qed.

Module BitsFacts.
Import DV Bits.




End BitsFacts.

Module DescFacts.
Import DV GX VCD Interp Samples.


Section Desc.
Variable AF : ShaderAttrFlagsEnum.
Variable E : Env.



End Desc.
End DescFacts.


Module InterpFacts.
Import DV GX VCD Interp Samples.

Section Run.
Variable SF : ShaderFlagsEnum.
Variable AF : ShaderAttrFlagsEnum.
Variable buildGeometry : VCD.t → DataView → bool.
Variable E : Env.

Local Abbreviation step := (step SF AF buildGeometry E).
Local Abbreviation callDL := (callDL SF AF buildGeometry E).
Local Abbreviation normalPath := (normalPath SF AF buildGeometry E).
Local Abbreviation waterPath := (waterPath SF AF buildGeometry E).
Local Abbreviation furPath := (furPath SF AF buildGeometry E).
Local Abbreviation specialStep := (specialStep SF AF buildGeometry E).
Local Abbreviation runLoop := (runLoop SF AF buildGeometry E).














(** C3 (amended).  An opcode outside SetShader, CallDL, SetVCD, SetMatrices
    and End does not raise.  [runBitstream] skips it: the four bits are
    consumed, the rest of the state is as before and the loop goes on with the
    next opcode.  [runSpecialBitstreamMulti] stops on it and returns the
    shapes collected so far, as it does on End. *)
Theorem unknown_opcode_skipped_or_final bitsOffset drawStep s k sh st :
  (∀ op r, Bits.get (bits s) 4 = Some (op, r) → knownOpcode op = false →
     step bitsOffset drawStep s = Continue (withBits s r)
     ∧ ∀ fuel, runLoop (S fuel) bitsOffset drawStep s
               = runLoop fuel bitsOffset drawStep (withBits s r))
  ∧ (∀ op r, Bits.get (sbits st) 4 = Some (op, r) → knownOpcode op = false →
       specialStep k sh st = Some (inr (out st))
       ∧ ∀ fuel, specialLoop SF AF buildGeometry E (S fuel) k sh st
                 = SpecialShapes (out st)).
Proof.
  unfold knownOpcode. split; intros op r Hget Hop;
    apply bool_decide_eq_false in Hop;
    assert (op ≠ 1 ∧ op ≠ 2 ∧ op ≠ 3 ∧ op ≠ 4 ∧ op ≠ 5) as (H1 & H2 & H3 & H4 & H5)
      by (repeat split; intros ->; apply Hop; set_solver).
  - assert (Hstep : step bitsOffset drawStep s = Continue (withBits s r)).
    { unfold Interp.step, orRaise. rewrite Hget.
      repeat (rewrite decide_False by assumption). reflexivity. }
    split; [exact Hstep|]. intros fuel. simpl. rewrite Hstep. reflexivity.
  - assert (Hstep : specialStep k sh st = Some (inr (out st))).
    { unfold Interp.specialStep. rewrite Hget. simpl.
      repeat (rewrite decide_False by assumption). reflexivity. }
    split; [exact Hstep|]. intros fuel. simpl. rewrite Hstep. reflexivity.
Qed.

End Run.
End InterpFacts.

(** The first opcode of the sample stream is 0; the turn consumes its four
    bits and the loop goes on. *)
Lemma unknown_opcode_skipped_or_final_witness :
  let E := Samples.demoMapEnv false Samples.skipStream in
  let s := Interp.initState (Samples.freshShared []) (Bits.new Samples.skipStream 1) in
  ∃ r, Bits.get (Interp.bits s) 4 = Some (0, r)
       ∧ Interp.step Samples.sampleFlags Samples.sampleAttrFlags Samples.buildsNone E 1 0 s
         = Interp.Continue (Interp.withBits s r).
Proof.
  intros E s. eexists. split; [vm_compute; reflexivity|].
  refine (proj1 (proj1 (InterpFacts.unknown_opcode_skipped_or_final
            Samples.sampleFlags Samples.sampleAttrFlags Samples.buildsNone E 1 0 s
            Interp.WaterSpecial [] {| Interp.sbits := Bits.new [] 0; Interp.locShaderNum := 0;
                                      Interp.locVcd := []; Interp.out := [] |})
            0 _ _ _)).
  - vm_compute. reflexivity.
  - reflexivity.
Defined.

(** C3 (as stated) fails for [runBitstream]: the sample stream opens with the
    unknown opcode 0, and the run still executes the SetMatrices that follows
    it, so the matrix map ends with 7 in its first entry. *)
Lemma runBitstream_reads_on_after_unknown_opcode :
  let E := Samples.demoMapEnv false Samples.skipStream in
  ∃ r s',
    Bits.get (Bits.new Samples.skipStream 1) 4 = Some (0, r)
    ∧ Samples.knownOpcode 0 = false
    ∧ Interp.runBitstream Samples.sampleFlags Samples.sampleAttrFlags Samples.buildsNone E
        (Samples.freshShared []) 1 0 = Interp.Finished s'
    ∧ Interp.pnMatrixMap s' = [7; 0; 0; 0; 0; 0; 0; 0; 0; 0].
Proof.
  intros E. eexists. eexists. split; [vm_compute; reflexivity|].
  split; [reflexivity|]. split; [vm_compute; reflexivity|]. reflexivity.
Qed.

Module RetryFacts.
Import DV GX VCD Interp Samples.




Section Retry.
Variable SF : ShaderFlagsEnum.
Variable AF : ShaderAttrFlagsEnum.
Variable buildGeometry : VCD.t → DataView → bool.
Variable E : Env.

Local Abbreviation callDL := (callDL SF AF buildGeometry E).
Local Abbreviation normalPath := (normalPath SF AF buildGeometry E).
Local Abbreviation waterPath := (waterPath SF AF buildGeometry E).
Local Abbreviation furPath := (furPath SF AF buildGeometry E).
Local Abbreviation buildWithRetries := (buildWithRetries buildGeometry E).
Local Abbreviation retryHeaderAndMatrix := (retryHeaderAndMatrix buildGeometry E).
Local Abbreviation retryAltStrides := (retryAltStrides buildGeometry).


















End Retry.
End RetryFacts.





Module GlobalsFacts.
Import Loader Globals Samples.

Lemma preserved_refl (h : Heap) : preserved h h.
Proof. intros l _. reflexivity. Qed.

Lemma preserved_dom (h h' : Heap) : preserved h h' → dom h ⊆ dom h'.
Proof.
  intros Hp l Hl. apply elem_of_dom. rewrite (Hp l Hl). apply elem_of_dom, Hl.
Qed.

Lemma preserved_trans (h1 h2 h3 : Heap) :
  preserved h1 h2 → preserved h2 h3 → preserved h1 h3.
Proof.
  intros H12 H23 l Hl. rewrite H23, H12; [reflexivity | assumption |].
  apply (preserved_dom _ _ H12), Hl.
Qed.

Lemma preserved_insert_fresh (h : Heap) l o : l ∉ dom h → preserved h (<[l := o]> h).
Proof.
  intros Hl k Hk. apply lookup_insert_ne. intros ->. contradiction.
Qed.

Lemma alloc_spec (h : Heap) o l h' :
  alloc h o = (l, h') → (l ∉ dom h) ∧ h' = <[l := o]> h ∧ preserved h h'.
Proof.
  unfold alloc. intros [= <- <-].
  assert (Hf : fresh (dom h) ∉ dom h) by apply is_fresh.
  split; [exact Hf|]. split; [reflexivity|]. apply preserved_insert_fresh, Hf.
Qed.

Lemma cloneCells_spec cells :
  ∀ (h : Heap) cells' h',
    cloneCells h cells = Some (cells', h') →
    preserved h h' ∧ ∀ c, c ∈ cells' → c ∉ dom h.
Proof.
  induction cells as [|c cells IH]; intros h cells' h'; cbn [cloneCells].
  { intros [= <- <-]. split; [apply preserved_refl | intros ? Hin; inversion Hin]. }
  intros H. apply bind_Some in H as (f & Hf & H).
  destruct (alloc h _) as [c1 h1] eqn:Ha.
  apply alloc_spec in Ha as (Hfresh & -> & Hp1).
  apply bind_Some in H as ([cs h2] & Hrest & H). injection H as <- <-.
  destruct (IH _ _ _ Hrest) as (Hp2 & Hcs).
  split; [eapply preserved_trans; eassumption|].
  intros k [-> | Hk]%elem_of_cons; [exact Hfresh|].
  intros Hin. apply (Hcs k Hk). apply (preserved_dom _ _ Hp1), Hin.
Qed.

Lemma readArr_preserved (h h' : Heap) l cells :
  preserved h h' → readArr h l = Some cells → readArr h' l = Some cells.
Proof.
  unfold readArr. intros Hp H.
  destruct (h !! l) as [o|] eqn:Hl; [|discriminate].
  rewrite (Hp l), Hl; [exact H|]. apply elem_of_dom. eauto.
Qed.

Lemma cloneRows_spec rows :
  ∀ (h : Heap) rows' h',
    cloneRows h rows = Some (rows', h') →
    preserved h h'
    ∧ ∀ rl, rl ∈ rows' →
        ∃ cells, readArr h' rl = Some cells ∧ ∀ c, c ∈ cells → c ∉ dom h.
Proof.
  induction rows as [|r rows IH]; intros h rows' h'; cbn [cloneRows].
  { intros [= <- <-]. split; [apply preserved_refl | intros ? Hin; inversion Hin]. }
  intros H. apply bind_Some in H as (cells & Hcells & H).
  apply bind_Some in H as ([cells' h1] & Hclone & H). cbn beta iota in H.
  destruct (alloc h1 _) as [r1 h2] eqn:Ha.
  apply alloc_spec in Ha as (Hfresh & Hh2 & Hp2).
  apply bind_Some in H as ([rs h3] & Hrest & H). injection H as <- <-.
  destruct (cloneCells_spec _ _ _ _ Hclone) as (Hp1 & Hc1).
  destruct (IH _ _ _ Hrest) as (Hp3 & Hrs).
  split; [eapply preserved_trans; [|exact Hp3]; eapply preserved_trans; eassumption|].
  intros rl [-> | Hrl]%elem_of_cons.
  - exists cells'. split; [|exact Hc1].
    apply (readArr_preserved h2 h3); [exact Hp3|].
    unfold readArr. rewrite Hh2, lookup_insert_eq. reflexivity.
  - destruct (Hrs rl Hrl) as (cs & Hread & Hcs). exists cs. split; [exact Hread|].
    intros c Hc Hin. apply (Hcs c Hc).
    apply (preserved_dom _ _ Hp2), (preserved_dom _ _ Hp1), Hin.
Qed.

Lemma cloneVat_spec (h : Heap) baseVat vat h' :
  cloneVat h baseVat = Some (vat, h') → preserved h h' ∧ freshTable h h' vat ∧ vat ∉ dom h.
Proof.
  unfold cloneVat. intros H. apply bind_Some in H as (rows & Hrows & H).
  apply bind_Some in H as ([rows' h1] & Hclone & H). cbn beta iota in H.
  assert (Ha : alloc h1 (OArr rows') = (vat, h')) by congruence. clear H.
  apply alloc_spec in Ha as (Hfresh & -> & Hp2).
  destruct (cloneRows_spec _ _ _ _ Hclone) as (Hp1 & Hr).
  split; [eapply preserved_trans; eassumption|]. split.
  - exists rows'. split; [unfold readArr; rewrite lookup_insert_eq; reflexivity|].
    intros rl Hrl. destruct (Hr rl Hrl) as (cells & Hread & Hcells).
    exists cells. split; [|exact Hcells].
    apply (readArr_preserved h1); assumption.
  - intros Hin. apply Hfresh, (preserved_dom _ _ Hp1), Hin.
Qed.

Lemma freshTable_weaken (h0 h1 h : Heap) vat :
  dom h0 ⊆ dom h1 → freshTable h1 h vat → freshTable h0 h vat.
Proof.
  intros Hsub (rows & Hrows & Hr). exists rows. split; [exact Hrows|].
  intros rl Hrl. destruct (Hr rl Hrl) as (cells & Hread & Hcells).
  exists cells. split; [exact Hread|]. intros c Hc Hin. apply (Hcells c Hc), Hsub, Hin.
Qed.

(** A write to a format object leaves every array of the store as it was. *)
Lemma readArr_update_fmt (h : Heap) fl f g l :
  readFmt h fl = Some f → readArr (<[fl := OFmt g]> h) l = readArr h l.
Proof.
  unfold readFmt, readArr. intros Hf.
  destruct (decide (fl = l)) as [-> | Hne].
  - rewrite lookup_insert_eq. destruct (h !! l) as [[| |]|]; try discriminate; reflexivity.
  - rewrite lookup_insert_ne by assumption. reflexivity.
Qed.

Lemma updateFmt_spec (h0 h : Heap) vat r a upd h' :
  preserved h0 h → freshTable h0 h vat → updateFmt h vat r a upd = Some h' →
  preserved h0 h' ∧ freshTable h0 h' vat.
Proof.
  intros Hp (rows & Hrows & Hr). unfold updateFmt. intros H.
  apply bind_Some in H as (rows1 & Hrows1 & H).
  rewrite Hrows in Hrows1. injection Hrows1 as <-.
  apply bind_Some in H as (rl & Hrl & H).
  apply bind_Some in H as (cells & Hcells & H).
  apply bind_Some in H as (fl & Hfl & H).
  apply bind_Some in H as (f & Hf & H). injection H as <-.
  destruct (Hr rl (list_elem_of_lookup_2 _ _ _ Hrl)) as (cells1 & Hread & Hfresh).
  rewrite Hcells in Hread. injection Hread as <-.
  assert (Hnew : fl ∉ dom h0) by (apply Hfresh, (list_elem_of_lookup_2 _ _ _ Hfl)).
  split.
  - intros l Hl. rewrite lookup_insert_ne by (intros ->; contradiction). apply Hp, Hl.
  - exists rows. split; [rewrite (readArr_update_fmt _ _ _ _ _ Hf); exact Hrows|].
    intros rl' Hrl'. destruct (Hr rl' Hrl') as (cs & Hread & Hcs).
    exists cs. split; [rewrite (readArr_update_fmt _ _ _ _ _ Hf); exact Hread | exact Hcs].
Qed.

Lemma updateRows_spec (h0 : Heap) vat a upd rs :
  ∀ (h h' : Heap),
    preserved h0 h → freshTable h0 h vat → updateRows h vat rs a upd = Some h' →
    preserved h0 h' ∧ freshTable h0 h' vat.
Proof.
  induction rs as [|r rs IH]; intros h h' Hp Hf; cbn [updateRows].
  { intros [= <-]. auto. }
  intros H. apply bind_Some in H as (h1 & Hu & H).
  destruct (updateFmt_spec _ _ _ _ _ _ _ Hp Hf Hu) as (Hp1 & Hf1).
  eapply IH; eassumption.
Qed.

(** C10.  The part of [loadModel] that patches [numListBits], picks and
    clones the base VAT and applies the NBT position-shift and the Early3/4
    RGBA4 overrides leaves every object that existed before the call as it
    was: the four VAT presets and the entries of [FIELDS] among them.  The
    table bound to [vat] is a new object, and the patched [fields] of the
    144448-byte Early1 file is a new object holding [numListBits = 6] while
    the table entry keeps its own value. *)
Theorem loadModelTables_preserves_globals NBT G (h : Heap) version total header0x24
    h' fieldsRef vat :
  loadModelTables NBT G h version total header0x24 = Some (h', fieldsRef, vat) →
  preserved h h'
  ∧ (vat ∉ dom h)
  ∧ (version = Early1 ∧ total = 144448 →
     (fieldsRef ∉ dom h)
     ∧ ∃ f0, (FIELDS_ref G version ≫= readFields h') = Some f0
             ∧ readFields h' fieldsRef = Some (setNumListBits f0 6))
  ∧ (¬ (version = Early1 ∧ total = 144448) → FIELDS_ref G version = Some fieldsRef).
Proof.
  unfold loadModelTables. intros H.
  apply bind_Some in H as (fields0 & Hfields0 & H).
  apply bind_Some in H as (f0 & Hf0 & H).
  destruct (alloc h (OFields f0)) as [l hl] eqn:Ha.
  apply alloc_spec in Ha as (Hlfresh & -> & Hpl).
  set (patch := bool_decide (version = Early1) && bool_decide (total = 144448)) in *.
  set (h1 := if patch then <[l := OFields (setNumListBits f0 6)]> (<[l := OFields f0]> h)
             else h).
  set (fr := if patch then l else fields0).
  assert (Hpair : (if patch
                   then (l, <[l := OFields (setNumListBits f0 6)]> (<[l := OFields f0]> h))
                   else (fields0, h)) = (fr, h1))
    by (subst fr h1; destruct patch; reflexivity).
  rewrite Hpair in H. clear Hpair. cbn beta iota in H.
  assert (Hp1 : preserved h h1).
  { subst h1. destruct patch; [|apply preserved_refl].
    rewrite insert_insert_eq. apply preserved_insert_fresh, Hlfresh. }
  apply bind_Some in H as (f & Hf & H).
  apply bind_Some in H as ([vat' h2] & Hclone & H). cbn beta iota in H.
  apply cloneVat_spec in Hclone as (Hp2 & Hft2 & Hvat).
  apply bind_Some in H as (h3 & Hh3 & H).
  assert (H3 : preserved h1 h3 ∧ freshTable h1 h3 vat').
  { destruct (_ && _) in Hh3.
    - eapply updateRows_spec; eassumption.
    - injection Hh3 as <-. auto. }
  destruct H3 as (Hp3 & Hft3).
  apply bind_Some in H as (h4 & Hh4 & H). injection H as <- <- <-.
  assert (H4 : preserved h1 h4 ∧ freshTable h1 h4 vat').
  { destruct (_ && _) in Hh4.
    - eapply updateRows_spec; eassumption.
    - injection Hh4 as <-. auto. }
  destruct H4 as (Hp4 & Hft4).
  assert (Hfr : readFields h4 fr = Some f).
  { unfold readFields in *. rewrite Hp4; [exact Hf|].
    apply elem_of_dom. destruct (h1 !! fr); [eauto | discriminate]. }
  split; [eapply preserved_trans; eassumption|]. split.
  { intros Hin. apply Hvat, (preserved_dom _ _ Hp1), Hin. }
  split.
  - intros [Hv Ht]. subst fr h1 patch.
    rewrite !bool_decide_eq_true_2 in * by assumption. cbn [andb] in *.
    split; [exact Hlfresh|]. exists f0. split.
    + rewrite Hfields0. cbn [mbind option_bind].
      unfold readFields in *. rewrite Hp4.
      * rewrite insert_insert_eq, lookup_insert_ne; [exact Hf0|].
        intros ->. apply Hlfresh, elem_of_dom.
        destruct (h !! fields0); [eauto | discriminate].
      * apply elem_of_dom. rewrite insert_insert_eq, lookup_insert_ne.
        -- destruct (h !! fields0); [eauto | discriminate].
        -- intros ->. apply Hlfresh, elem_of_dom.
           destruct (h !! fields0); [eauto | discriminate].
    + rewrite Hfr. f_equal. unfold readFields in Hf.
      rewrite insert_insert_eq, lookup_insert_eq in Hf. congruence.
  - intros Hno. subst fr patch.
    destruct (bool_decide (version = Early1) && bool_decide (total = 144448)) eqn:Hc.
    + apply andb_true_iff in Hc as [?%bool_decide_eq_true ?%bool_decide_eq_true]. tauto.
    + exact Hfields0.
Qed.

End GlobalsFacts.

(** Loading the 144448-byte Early1 file over the small store leaves the
    shared entry of [FIELDS] with its own [numListBits = 8]; the patched copy
    holds 6. *)
Lemma loadModelTables_preserves_globals_witness :
  ∃ h' fieldsRef vat,
    Globals.loadModelTables 0x8 Samples.smallRoots Samples.smallHeap
      Loader.Early1 144448 0 = Some (h', fieldsRef, vat)
    ∧ Samples.preserved Samples.smallHeap h'
    ∧ (Loader.numListBits <$> Globals.readFields h' 4%positive) = Some 8
    ∧ (Loader.numListBits <$> Globals.readFields h' fieldsRef) = Some 6.
Proof.
  eexists. eexists. eexists. split; [vm_compute; reflexivity|].
  split; [|split; vm_compute; reflexivity].
  refine (proj1 (GlobalsFacts.loadModelTables_preserves_globals 0x8 Samples.smallRoots
            Samples.smallHeap Loader.Early1 144448 0 _ _ _ _)).
  vm_compute. reflexivity.
Defined.

(** The store built at module initialisation holds the tables the loader
    needs: the same call succeeds on it. *)
Example loadModelTables_after_initModule :
  is_Some (Globals.loadModelTables 0x8 Globals.initModule.1 Globals.initModule.2
             Loader.Early1 144448 0).
Proof. vm_compute. eexists. reflexivity. Qed.

(** ** Termination of the two interpreter loops

    Each turn reads an opcode of four bits from a finite view, so the fuel
    given to the loops is never used up. *)
Module FuelFacts.
Import DV Bits Interp Samples.

Lemma fwd_refl r : fwd r r.
Proof. unfold fwd. repeat split; lia. Qed.

Lemma fwd_trans r1 r2 r3 : fwd r1 r2 → fwd r2 r3 → fwd r1 r3.
Proof.
  unfold fwd, remaining. intros (Hd1 & Hb1 & Hi1 & Hr1) (Hd2 & Hb2 & Hi2 & Hr2).
  split; [congruence|]. split; [congruence|]. split; [lia|].
  intros Hlt. rewrite Hd2, Hb2 in *. rewrite Hd1, Hb1 in *.
  destruct (decide (bitIndex r1 < bitIndex r2)) as [H12 | H12].
  - destruct (Hr1 H12) as [Hs Hrem]. split; [exact Hs|].
    destruct (decide (bitIndex r2 < bitIndex r3)) as [H23 | H23]; [apply Hr2, H23 | lia].
  - assert (bitIndex r2 = bitIndex r1) by lia.
    destruct (Hr2 ltac:(lia)) as [Hs Hrem]. split; [lia | exact Hrem].
Qed.

Lemma bitAt_in_view r k b :
  bitAt r k = Some b → 0 ≤ baseOffs r + k / 8 < byteLength (dv r).
Proof.
  unfold bitAt, getUint8. intros H. apply bind_Some in H as (x & Hx & _).
  case_decide as Hpos; [|discriminate].
  apply fmap_Some in Hx as (y & Hy & _). apply lookup_lt_Some in Hy.
  unfold byteLength. lia.
Qed.

Lemma peekFrom_in_view r n :
  ∀ k x, peekFrom r k (S n) = Some x →
    0 ≤ baseOffs r + k / 8 ∧ baseOffs r + (k + Z.of_nat n) / 8 < byteLength (dv r).
Proof.
  induction n as [|n IH]; intros k x H; cbn [peekFrom] in H.
  - apply bind_Some in H as (b & Hb & _). apply bitAt_in_view in Hb.
    replace (k + Z.of_nat 0) with k by lia. lia.
  - apply bind_Some in H as (b & Hb & H). apply bitAt_in_view in Hb.
    apply bind_Some in H as (rest & Hrest & _).
    destruct (IH _ _ Hrest) as [_ Hhi]. split; [lia|].
    replace (k + Z.of_nat (S n)) with (k + 1 + Z.of_nat n) by lia. exact Hhi.
Qed.

Lemma get_fwd r n x r' :
  get r n = Some (x, r') → fwd r r' ∧ bitIndex r' = bitIndex r + Z.of_nat n.
Proof.
  unfold get. intros H. apply bind_Some in H as (y & Hy & H). injection H as <- <-.
  split; [|reflexivity]. unfold fwd, remaining, advance. simpl.
  split; [reflexivity|]. split; [reflexivity|]. split; [lia|].
  intros Hlt. destruct n as [|n]; [lia|].
  destruct (peekFrom_in_view _ _ _ _ Hy) as [Hlo Hhi].
  pose proof (Z.mul_div_le (bitIndex r) 8 ltac:(lia)).
  pose proof (Z.mod_pos_bound (bitIndex r + Z.of_nat n) 8 ltac:(lia)).
  pose proof (Z.div_mod (bitIndex r + Z.of_nat n) 8 ltac:(lia)).
  split; lia.
Qed.

Lemma drop_fwd r n r' : drop r n = Some r' → fwd r r'.
Proof.
  unfold drop. intros H. apply fmap_Some in H as ([x r1] & Hget & ->).
  apply get_fwd in Hget as [Hf _]. exact Hf.
Qed.

Lemma skipBones_fwd n : ∀ r r', Interp.skipBones n r = Some r' → fwd r r'.
Proof.
  induction n as [|n IH]; intros r r'; cbn [skipBones].
  { intros [= <-]. apply fwd_refl. }
  intros H. apply bind_Some in H as ([x r1] & Hget & H). cbn beta iota in H.
  apply get_fwd in Hget as [Hf _]. eapply fwd_trans; [exact Hf | apply IH, H].
Qed.

Section Loops.
Variable SF : ShaderFlagsEnum.
Variable AF : ShaderAttrFlagsEnum.
Variable buildGeometry : VCD.t → DataView → bool.
Variable E : Env.

Local Abbreviation step := (step SF AF buildGeometry E).
Local Abbreviation callDL := (callDL SF AF buildGeometry E).
Local Abbreviation specialStep := (specialStep SF AF buildGeometry E).
Local Abbreviation specialLoop := (specialLoop SF AF buildGeometry E).
Local Abbreviation runLoop := (runLoop SF AF buildGeometry E).

Lemma readVertexDesc_fwd r sh v r' :
  readVertexDesc AF E r sh = Some (v, r') → fwd r r'.
Proof.
  unfold readVertexDesc. intros H.
  apply bind_Some in H as (s & _ & H).
  apply bind_Some in H as (v0 & _ & H).
  apply bind_Some in H as ([bp r1] & Hpos & H). cbn beta iota in H.
  apply bind_Some in H as (v1 & _ & H).
  apply bind_Some in H as ([tn r2] & Hnrm & H). cbn beta iota in H.
  apply bind_Some in H as (v2 & _ & H).
  apply bind_Some in H as ([tc r3] & Hclr & H). cbn beta iota in H.
  apply bind_Some in H as (v3 & _ & H).
  apply bind_Some in H as ([v4 r4] & Htex & H). cbn beta iota in H.
  apply bind_Some in H as (r5 & Halign & H). injection H as _ <-.
  apply get_fwd in Hpos as [F1 _].
  assert (F2 : fwd r1 r2).
  { destruct (_ && _) in Hnrm.
    - apply bind_Some in Hnrm as ([bn rn] & Hget & Hnrm). injection Hnrm as <- <-.
      apply get_fwd in Hget as [F _]. exact F.
    - injection Hnrm as <- <-. apply fwd_refl. }
  assert (F3 : fwd r2 r3).
  { unfold readClr0 in Hclr. destruct (wantClr0 AF E s).
    - apply bind_Some in Hclr as ([b rc] & Hget & Hclr). injection Hclr as <- <-.
      apply get_fwd in Hget as [F _]. exact F.
    - injection Hclr as <- <-. apply fwd_refl. }
  assert (F4 : fwd r3 r4).
  { case_decide.
    - apply bind_Some in Htex as ([bt rt] & Hget & Htex). cbn beta iota in Htex.
      apply bind_Some in Htex as (v' & _ & Htex). injection Htex as <- <-.
      apply get_fwd in Hget as [F _]. exact F.
    - apply bind_Some in Htex as (v' & _ & Htex). injection Htex as <- <-.
      apply fwd_refl. }
  assert (F5 : fwd r4 r5).
  { unfold alignAfterVcd in Halign. destruct (oldVat (fields E)).
    - case_decide; [injection Halign as <-; apply fwd_refl | eapply drop_fwd, Halign].
    - injection Halign as <-. apply fwd_refl. }
  eauto using fwd_trans.
Qed.

Lemma furPath_bits s bo ds dl sh :
  bits (outState (furPath SF AF buildGeometry E s bo ds dl sh)) = bits s.
Proof.
  unfold furPath. destruct (_ && _); [|reflexivity].
  destruct (runSpecialBitstreamMulti _ _ _ _ _ _ _ _ _) as [[|f rest]| |]; reflexivity.
Qed.

Lemma callDL_bits s bo ds listNum : bits (outState (callDL s bo ds listNum)) = bits s.
Proof.
  unfold Interp.callDL, orRaise.
  case_decide; [reflexivity|].
  destruct (dlInfoAt _ _) as [dl|]; [|reflexivity].
  destruct (_ || _); [reflexivity|].
  destruct (dataSubarrayLen _ _ _) as [displayList|]; [|reflexivity].
  destruct (curShader s) as [sh0|]; [|reflexivity].
  match goal with |- context [if ?c then withShaders s ?m else s] =>
    set (s1 := if c then withShaders s m else s) end.
  assert (Hb1 : bits s1 = bits s).
  { subst s1. match goal with |- context [if ?c then _ else _] => destruct c end;
      reflexivity. }
  destruct (curShader s1) as [sh|]; [|exact Hb1].
  rewrite <- Hb1.
  match goal with |- context [outState (if ?c then _ else _)] => destruct c end.
  - unfold waterPath, orRaise.
    match goal with |- context [match ?x with SpecialShapes _ => _ | _ => _ end] =>
      destruct x as [[|w ws]| |] end; try reflexivity.
    destruct (tuneVCDForDL _ _ _ _ _) as [tunedVcd|]; [|reflexivity].
    destruct (buildGeometry _ _); reflexivity.
  - unfold normalPath, orRaise.
    destruct (tuneVCDForDL _ _ _ _ _) as [tunedVcd|]; [|reflexivity].
    destruct (tinyDlSkip _ _ _); [reflexivity|].
    destruct (buildWithRetries _ _ _ _ _ _ _ _) as [[x|]|]; [| |reflexivity];
      rewrite furPath_bits; reflexivity.
Qed.

Lemma setShader_bits s num : bits (outState (setShader E s num)) = bits s.
Proof.
  unfold setShader. case_decide; [reflexivity|].
  destruct (_ && _); [|reflexivity]. destruct (shaderAt _ _); reflexivity.
Qed.

Lemma readMatrices_fwd n : ∀ i s, fwd (bits s) (bits (outState (readMatrices n i s))).
Proof.
  induction n as [|n IH]; intros i s; cbn [readMatrices]; [apply fwd_refl|].
  unfold orRaise. destruct (get (bits s) 8) as [[b r]|] eqn:Hget; [|apply fwd_refl].
  apply get_fwd in Hget as [F _].
  eapply fwd_trans; [exact F|]. apply (IH (S i) (withPnMatrixMap (withBits s r) _)).
Qed.

(** A turn that goes on has read its opcode: the reader has advanced by at
    least four bits inside the view. *)
Lemma step_Continue bo ds s s' :
  step bo ds s = Continue s' →
  fwd (bits s) (bits s') ∧ bitIndex (bits s) + 4 ≤ bitIndex (bits s').
Proof.
  unfold Interp.step, orRaise.
  destruct (get (bits s) 4) as [[opcode r]|] eqn:Hget; [|discriminate].
  apply get_fwd in Hget as [F0 Hi0]. change (Z.of_nat 4) with 4 in Hi0.
  assert (Hgo : ∀ r1, fwd r r1 → fwd (bits s) r1 ∧ bitIndex (bits s) + 4 ≤ bitIndex r1).
  { intros r1 F1. split; [eapply fwd_trans; eassumption|].
    destruct F1 as (_ & _ & Hle & _). lia. }
  case_decide.
  { destruct (get r 6) as [[shaderNum r1]|] eqn:Hg; [|discriminate].
    apply get_fwd in Hg as [F1 _]. intros Hs.
    pose proof (setShader_bits (withBits (withBits s r) r1) shaderNum) as Hb.
    rewrite Hs in Hb. cbn [outState] in Hb. rewrite Hb. apply Hgo, F1. }
  case_decide.
  { destruct (get r _) as [[listNum r1]|] eqn:Hg; [|discriminate].
    apply get_fwd in Hg as [F1 _]. intros Hs.
    pose proof (callDL_bits (withBits (withBits s r) r1) bo ds listNum) as Hb.
    rewrite Hs in Hb. cbn [outState] in Hb. rewrite Hb. apply Hgo, F1. }
  case_decide.
  { destruct (readVertexDesc _ _ _ _) as [[v r1]|] eqn:Hg; [|discriminate].
    apply readVertexDesc_fwd in Hg. intros [= <-]. apply Hgo, Hg. }
  case_decide.
  { destruct (get r 4) as [[numBones r1]|] eqn:Hg; [|discriminate].
    apply get_fwd in Hg as [F1 _]. case_decide; [discriminate|]. intros Hs.
    pose proof (readMatrices_fwd (Z.to_nat numBones) 0 (withBits (withBits s r) r1)) as Hb.
    rewrite Hs in Hb. cbn [outState] in Hb. apply Hgo.
    eapply fwd_trans; [exact F1 | exact Hb]. }
  case_decide; [discriminate|]. intros [= <-]. apply Hgo, fwd_refl.
Qed.

Lemma specialStep_inl k sh st st' :
  specialStep k sh st = Some (inl st') →
  fwd (sbits st) (sbits st') ∧ bitIndex (sbits st) + 4 ≤ bitIndex (sbits st').
Proof.
  unfold Interp.specialStep. intros H.
  apply bind_Some in H as ([op r] & Hget & H). cbn beta iota in H.
  apply get_fwd in Hget as [F0 Hi0]. change (Z.of_nat 4) with 4 in Hi0.
  assert (Hgo : ∀ r1, fwd r r1 → fwd (sbits st) r1 ∧ bitIndex (sbits st) + 4 ≤ bitIndex r1).
  { intros r1 F1. split; [eapply fwd_trans; eassumption|].
    destruct F1 as (_ & _ & Hle & _). lia. }
  case_decide.
  { apply bind_Some in H as ([n r1] & Hg & H). injection H as <-.
    apply get_fwd in Hg as [F1 _]. apply Hgo, F1. }
  case_decide.
  { apply bind_Some in H as ([v r1] & Hg & H). injection H as <-.
    apply readVertexDesc_fwd in Hg. apply Hgo, Hg. }
  case_decide.
  { apply bind_Some in H as ([n r1] & Hg & H). cbn beta iota in H.
    apply bind_Some in H as (r2 & Hskip & H). injection H as <-.
    apply get_fwd in Hg as [F1 _]. apply skipBones_fwd in Hskip.
    apply Hgo. eapply fwd_trans; eassumption. }
  case_decide; [|discriminate].
  apply bind_Some in H as ([n r1] & Hg & H). cbn beta iota zeta in H.
  apply get_fwd in Hg as [F1 _].
  case_decide; [injection H as <-; apply Hgo, F1|].
  apply bind_Some in H as (locShader & _ & H).
  destruct (negb _); [injection H as <-; apply Hgo, F1|].
  apply bind_Some in H as (dlInfo & _ & H).
  apply bind_Some in H as (displayList & _ & H).
  destruct (buildGeometry _ _); [|discriminate].
  injection H as <-. apply Hgo, F1.
Qed.

(** What is left to read bounds the number of turns. *)
Lemma runLoop_enough fuel bo ds :
  ∀ s, remaining (bits s) < 4 * (Z.of_nat fuel + 1) →
       ∀ s', runLoop (S fuel) bo ds s ≠ Pending s'.
Proof.
  induction fuel as [|fuel IH]; intros s Hrem s'; cbn [Interp.runLoop].
  - destruct (step bo ds s) as [s1|s1|s1] eqn:Hstep; try discriminate.
    apply step_Continue in Hstep as [(Hd & Hb & _ & Hr) Hi].
    destruct (Hr ltac:(lia)) as [_ Hpos].
    unfold remaining in *. rewrite Hd, Hb in Hpos. lia.
  - destruct (step bo ds s) as [s1|s1|s1] eqn:Hstep; try discriminate.
    apply step_Continue in Hstep as [(Hd & Hb & _ & Hr) Hi].
    apply IH. unfold remaining in *. rewrite Hd, Hb. lia.
Qed.

Lemma specialLoop_enough fuel k sh :
  ∀ st, remaining (sbits st) < 4 * (Z.of_nat fuel + 1) →
        specialLoop (S fuel) k sh st ≠ SpecialPending.
Proof.
  induction fuel as [|fuel IH]; intros st Hrem; cbn [Interp.specialLoop].
  - destruct (specialStep k sh st) as [[st1|o]|] eqn:Hstep; try discriminate.
    apply specialStep_inl in Hstep as [(Hd & Hb & _ & Hr) Hi].
    destruct (Hr ltac:(lia)) as [_ Hpos].
    unfold remaining in *. rewrite Hd, Hb in Hpos. lia.
  - destruct (specialStep k sh st) as [[st1|o]|] eqn:Hstep; try discriminate.
    apply specialStep_inl in Hstep as [(Hd & Hb & _ & Hr) Hi].
    apply IH. unfold remaining in *. rewrite Hd, Hb. lia.
Qed.

(** The main loop never runs out of the fuel [runBitstream] gives it. *)
Lemma runLoop_loopFuel bo ds s :
  dv (bits s) = data E → ∀ s', runLoop (loopFuel E) bo ds s ≠ Pending s'.
Proof.
  intros Hdv s'. unfold loopFuel.
  destruct (decide (remaining (bits s) < 4 * (Z.of_nat (Z.to_nat (8 * byteLength (data E))) + 1)))
    as [Hlt | Hge]; [apply runLoop_enough, Hlt|].
  cbn [Interp.runLoop].
  destruct (step bo ds s) as [s1|s1|s1] eqn:Hstep; try discriminate.
  apply step_Continue in Hstep as [(Hd & Hb & _ & Hr) Hi].
  destruct (Hr ltac:(lia)) as [Hstart _]. exfalso. apply Hge.
  unfold remaining, byteLength in *. rewrite Hdv. lia.
Qed.

(** Nor does the special loop. *)
Lemma specialLoop_loopFuel k sh st :
  dv (sbits st) = data E → specialLoop (loopFuel E) k sh st ≠ SpecialPending.
Proof.
  intros Hdv. unfold loopFuel.
  destruct (decide (remaining (sbits st) < 4 * (Z.of_nat (Z.to_nat (8 * byteLength (data E))) + 1)))
    as [Hlt | Hge]; [apply specialLoop_enough, Hlt|].
  cbn [Interp.specialLoop].
  destruct (specialStep k sh st) as [[st1|o]|] eqn:Hstep; try discriminate.
  apply specialStep_inl in Hstep as [(Hd & Hb & _ & Hr) Hi].
  destruct (Hr ltac:(lia)) as [Hstart _]. exfalso. apply Hge.
  unfold remaining, byteLength in *. rewrite Hdv. lia.
Qed.

Lemma runSpecialBitstreamMulti_total bo addr k sh v :
  runSpecialBitstreamMulti SF AF buildGeometry E bo addr k sh v ≠ SpecialPending.
Proof.
  unfold runSpecialBitstreamMulti.
  destruct (seekBit _ _) as [r|] eqn:Hseek; [|discriminate].
  apply specialLoop_loopFuel. cbn [sbits].
  unfold seekBit in Hseek. apply drop_fwd in Hseek as (Hd & _). exact Hd.
Qed.

(** [runBitstream] returns or raises: it never stops for lack of fuel. *)
Lemma runBitstream_total shd bo ds s' :
  runBitstream SF AF buildGeometry E shd bo ds ≠ Pending s'.
Proof.
  unfold runBitstream. case_decide; [discriminate|].
  destruct (setShader E _ 0) as [s1|s1|s1] eqn:Hs; try discriminate.
  apply runLoop_loopFuel.
  pose proof (setShader_bits (initState shd (new (data E) bo)) 0) as Hb.
  rewrite Hs in Hb. cbn [outState] in Hb. rewrite Hb. reflexivity.
Qed.

End Loops.
End FuelFacts.
